(** * Kin_Robo: the marker-to-robot pipeline of [miscare_robot.py]

    A shallow embedding of the control core of [AprilTagApp]: the camera
    handle, the per-frame marker detection, the pixel-to-robot coordinate
    transform, the time gate on robot moves and the pick sequence sent to
    RoboDK.  Widgets, themes and drawing calls are left out; the two labels
    the core writes to are kept as fields.

    Numbers.  Python floats ([time.time()], [rel_x / 1000.0], the corner
    coordinates returned by OpenCV) are read as exact rationals [Q]; numpy
    integers as [Z].  Statements over [Q] that compare computed values use
    [==], the equality of rationals. *)

From Stdlib Require Import QArith Qround Qabs ZArith List String Bool Lia Lqa.
Import ListNotations.
Local Open Scope Q_scope.

(** ** Data *)

(** A pixel point and the four corners of a marker, [corners[i].reshape((4, 2))]. *)
Definition Point : Type := (Q * Q)%type.

Record Quad : Type := mkQuad { c0 : Point; c1 : Point; c2 : Point; c3 : Point }.

(** One detected marker: [ids[i][0]] and [corners[i]].  [detectMarkers]
    returns [ids = None] exactly when it found nothing, and otherwise as many
    ids as corner arrays, so its result is a list of markers and
    [ids is not None] is "the list is not empty". *)
Record Marker : Type := mkMarker { marker_id : Z; marker_corners : Quad }.

(** The OpenCV operations [update_frame] calls on a frame.  They are library
    code; the pipeline only composes them. *)
Class OpenCV : Type := {
  Frame : Type;
  Gray : Type;
  (** [cv2.bilateralFilter(frame, d=5, sigmaColor=75, sigmaSpace=75)] *)
  bilateralFilter : Frame -> Frame;
  (** [cv2.cvtColor(_, cv2.COLOR_BGR2GRAY)] *)
  cvtColor_BGR2GRAY : Frame -> Gray;
  (** [frame.shape[:2]], that is (height, width) *)
  frame_shape : Frame -> Z * Z;
  (** [self.detector.detectMarkers(gray)], with the dictionary and the
      parameters fixed in [__init__] *)
  detectMarkers : Gray -> list Marker
}.

(** A RoboDK pose: an orientation, which the program never touches, and a
    position in millimetres. *)
Record Pose : Type := mkPose { rotation : list Q; position : Q * Q * Q }.

Definition setPos (p : Pose) (xyz : Q * Q * Q) : Pose :=
  {| rotation := rotation p; position := xyz |}.

Inductive RobotCall : Type :=
| GetPose
| MoveJ (p : Pose)
| RunInstruction (name : string).

Inductive Message : Type :=
| CouldNotOpenCamera (index : Z)
| ObjectPicked.

(** What the program does to the outside, in order. *)
Inductive Event : Type :=
| EnterMoveToQr (x y z : Q)
| Robot (c : RobotCall)
| Sleep (seconds : Q)
| Printed (m : Message)
| CapRelease (device : Z)
| CapOpen (device : Z).

(** [cv2.VideoCapture]: the device index it was made for and [isOpened()]. *)
Record VideoCapture : Type := mkCap { device : Z; opened : bool }.

(** The payload drawn for one marker in the overlay loop. *)
Record Annotation : Type := mkAnn {
  ann_center : Z * Z;
  ann_rel : Z * Z;
  ann_seed : option string
}.

(** [video_label] shows a text or the annotated frame. *)
Inductive Display : Type :=
| Text (s : string)
| Pixmap (origin : Z * Z) (overlay : list Annotation).

(** The fields of [AprilTagApp] the core reads or writes. *)
Record App : Type := mkApp {
  last_move_time : Q;
  move_delay : Q;
  cap : option VideoCapture;
  video_label : Display;
  distance_label : string
}.

Definition set_last_move_time (t : Q) (s : App) : App :=
  {| last_move_time := t; move_delay := move_delay s; cap := cap s;
     video_label := video_label s; distance_label := distance_label s |}.

Definition set_cap (c : option VideoCapture) (s : App) : App :=
  {| last_move_time := last_move_time s; move_delay := move_delay s; cap := c;
     video_label := video_label s; distance_label := distance_label s |}.

Definition set_video_label (d : Display) (s : App) : App :=
  {| last_move_time := last_move_time s; move_delay := move_delay s; cap := cap s;
     video_label := d; distance_label := distance_label s |}.

Definition set_distance_label (d : string) (s : App) : App :=
  {| last_move_time := last_move_time s; move_delay := move_delay s; cap := cap s;
     video_label := video_label s; distance_label := d |}.

(** ** Methods as computations

    A method runs on the object's state, emits events and either returns or
    raises.  Nothing in the file catches an exception, so a raise ends the
    method with the state as it was at that point. *)

Inductive Outcome (A : Type) : Type :=
| Returned (a : A)
| Raised.
Arguments Returned {A} a.
Arguments Raised {A}.

Definition M (A : Type) : Type := App -> list Event * App * Outcome A.

Definition ret {A : Type} (a : A) : M A := fun s => ([], s, Returned a).

Definition bind {A B : Type} (m : M A) (f : A -> M B) : M B :=
  fun s =>
    match m s with
    | (t, s1, Returned a) =>
        match f a s1 with
        | (t', s2, r) => ((t ++ t')%list, s2, r)
        end
    | (t, s1, Raised) => (t, s1, Raised)
    end.

Notation "x <- m ;; k" := (bind m (fun x => k))
  (at level 61, m at next level, right associativity).
Notation "m ;; k" := (bind m (fun _ => k))
  (at level 61, right associativity).

Definition get : M App := fun s => ([], s, Returned s).
Definition modify (f : App -> App) : M unit := fun s => ([], f s, Returned tt).
Definition emit (e : Event) : M unit := fun s => ([e], s, Returned tt).
Definition raise {A : Type} : M A := fun s => ([], s, Raised).

(** The robot as one tick sees it: the pose [self.robot.Pose()] reports and,
    for each call, whether RoboDK acknowledges it or the call raises. *)
Record RobotLink : Type := mkRobot {
  robot_pose : Pose;
  robot_ack : RobotCall -> bool
}.

Definition robot_call (rb : RobotLink) (c : RobotCall) : M unit :=
  fun s => ([Robot c], s, if robot_ack rb c then Returned tt else Raised).

(** ** convert_to_robot_coordinates *)

Definition convert_to_robot_coordinates (rel_x rel_y : Q) : Q * Q * Q :=
  let x_robot := rel_x / 1000 in
  let y_robot := rel_y / 1000 in
  let z_robot := 0.1 in
  (x_robot, y_robot, z_robot).

(** ** move_to_qr *)

Definition move_to_qr (rb : RobotLink) (x y z : Q) : M unit :=
  emit (EnterMoveToQr x y z) ;;
  robot_call rb GetPose ;;
  let pose := robot_pose rb in
  let pose1 := setPos pose (x * 1000, y * 1000, z * 1000) in
  robot_call rb (MoveJ pose1) ;;
  emit (Sleep 1) ;;
  robot_call rb (RunInstruction "GripperClose") ;;
  emit (Sleep 1) ;;
  let pose2 := setPos pose1 (x * 1000, y * 1000, (z + 0.1) * 1000) in
  robot_call rb (MoveJ pose2) ;;
  emit (Printed ObjectPicked).

(** ** The marker centre: [corner.mean(axis=0).astype(int)] *)

Definition corner_mean (q : Quad) : Q * Q :=
  ((fst (c0 q) + fst (c1 q) + fst (c2 q) + fst (c3 q)) / 4,
   (snd (c0 q) + snd (c1 q) + snd (c2 q) + snd (c3 q)) / 4).

(** [astype(int)] on a float drops the fractional part (rounds toward zero). *)
Definition astype_int (x : Q) : Z :=
  if Qle_bool 0 x then Qfloor x else Qceiling x.

Definition marker_center (q : Quad) : Z * Z :=
  (astype_int (fst (corner_mean q)), astype_int (snd (corner_mean q))).

(** [rel_x = marker_center[0] - center_frame[0]],
    [rel_y = center_frame[1] - marker_center[1]]. *)
Definition relative (center_frame marker : Z * Z) : Z * Z :=
  ((fst marker - fst center_frame)%Z, (snd center_frame - snd marker)%Z).

(** The target handed to [move_to_qr] for a marker centre. *)
Definition target_of (center_frame marker : Z * Z) : Q * Q * Q :=
  let rel := relative center_frame marker in
  convert_to_robot_coordinates (inject_Z (fst rel)) (inject_Z (snd rel)).

(** ** tag_info *)

Definition tag_info : list (Z * string) :=
  [ (1%Z, "Porumb"%string); (2%Z, "Orz"%string); (3%Z, "Orez"%string);
    (4%Z, "Grau"%string); (5%Z, "Soia"%string); (6%Z, "Adauga"%string);
    (7%Z, "Adauga"%string); (8%Z, "Adauga"%string); (9%Z, "Adauga"%string);
    (10%Z, "Adauga"%string) ].

Fixpoint lookup_seed (tbl : list (Z * string)) (id : Z) : option string :=
  match tbl with
  | [] => None
  | (k, v) :: tbl' => if Z.eqb k id then Some v else lookup_seed tbl' id
  end.

Definition annotate (center_frame : Z * Z) (m : Marker) : Annotation :=
  let marker_c := marker_center (marker_corners m) in
  {| ann_center := marker_c;
     ann_rel := relative center_frame marker_c;
     ann_seed := lookup_seed tag_info (marker_id m) |}.

(** ** update_frame *)

(** What the outside supplies to one timer tick: the result of
    [self.cap.read()] ([None] when [ret] is false), the value of
    [time.time()], and the robot. *)
Record TickInput {cv : OpenCV} : Type := mkTick {
  cam_read : option Frame;
  now : Q;
  robot : RobotLink
}.

(** [x > y] on floats. *)
Definition Qgtb (x y : Q) : bool := negb (Qle_bool x y).

Definition to_gray {cv : OpenCV} (frame : Frame) : Gray :=
  cvtColor_BGR2GRAY (bilateralFilter frame).

Definition detect {cv : OpenCV} (frame : Frame) : list Marker :=
  detectMarkers (to_gray frame).

Definition center_of {cv : OpenCV} (frame : Frame) : Z * Z :=
  let '(height, width) := frame_shape frame in
  ((width / 2)%Z, (height / 2)%Z).

Definition camera_missing : string := "Camera not plugged in".

Definition update_frame {cv : OpenCV} (inp : TickInput) : M unit :=
  s <- get ;;
  match cap s with
  | None => raise
  | Some c =>
      if negb (opened c) then
        modify (set_video_label (Text camera_missing))
      else
        match cam_read inp with
        | Some frame =>
            let center_frame := center_of frame in
            let detections := detect frame in
            match detections with
            | first :: _ =>
                let current_time := now inp in
                (if Qgtb (current_time - last_move_time s) (move_delay s) then
                   let marker_c := marker_center (marker_corners first) in
                   let '(x_robot, y_robot, z_robot) := target_of center_frame marker_c in
                   move_to_qr (robot inp) x_robot y_robot z_robot ;;
                   modify (set_last_move_time current_time)
                 else ret tt) ;;
                modify (set_distance_label "Distance: Calculated")
            | [] =>
                modify (set_distance_label "Distance: N/A")
            end ;;
            modify (set_video_label
                      (Pixmap center_frame (map (annotate center_frame) detections)))
        | None =>
            modify (set_video_label (Text camera_missing))
        end
  end.

(** ** change_camera *)

(** [available i] tells whether [cv2.VideoCapture(i)] comes back opened. *)
Definition change_camera (available : Z -> bool) (new_index : Z) : M unit :=
  s <- get ;;
  match cap s with
  | Some old => emit (CapRelease (device old))
  | None => ret tt
  end ;;
  emit (CapOpen new_index) ;;
  let new_cap := {| device := new_index; opened := available new_index |} in
  modify (set_cap (Some new_cap)) ;;
  if negb (opened new_cap) then
    emit (Printed (CouldNotOpenCamera new_index)) ;;
    modify (set_video_label (Text camera_missing))
  else
    modify (set_video_label (Text "")).

(** ** __init__ *)

Definition init (available : Z -> bool) : App :=
  {| last_move_time := 0;
     move_delay := 3;
     cap := Some {| device := 0; opened := available 0%Z |};
     video_label := Text (if available 0%Z then "" else camera_missing);
     distance_label := "Distance: N/A" |}.

(** ** The event loop

    Qt calls [update_frame] on every timer tick and [change_camera] when the
    button is pressed, one call at a time.  A call that raises is not caught
    by the program; the run is followed up to that call. *)

Inductive Action {cv : OpenCV} : Type :=
| Tick (inp : TickInput)
| ChangeCamera (available : Z -> bool) (new_index : Z).

Definition perform {cv : OpenCV} (a : Action) : M unit :=
  match a with
  | Tick inp => update_frame inp
  | ChangeCamera available new_index => change_camera available new_index
  end.

(** The clock value an action sees and the events it emitted. *)
Definition LogEntry : Type := (option Q * list Event)%type.

Definition action_time {cv : OpenCV} (a : Action) : option Q :=
  match a with
  | Tick inp => Some (now inp)
  | ChangeCamera _ _ => None
  end.

Fixpoint run {cv : OpenCV} (actions : list Action) (s : App)
  : list LogEntry * App * Outcome unit :=
  match actions with
  | [] => ([], s, Returned tt)
  | a :: rest =>
      match perform a s with
      | (t, s1, Returned _) =>
          match run rest s1 with
          | (log, s2, r) => ((action_time a, t) :: log, s2, r)
          end
      | (t, s1, Raised) => ([(action_time a, t)], s1, Raised)
      end
  end.

(** ** Observations on traces *)

(** The targets [move_to_qr] was called with. *)
Definition dispatches (t : list Event) : list (Q * Q * Q) :=
  flat_map (fun e => match e with
                     | EnterMoveToQr x y z => [(x, y, z)]
                     | _ => []
                     end) t.

(** The commands sent to the robot, pose queries left out. *)
Definition robot_commands (t : list Event) : list RobotCall :=
  flat_map (fun e => match e with
                     | Robot GetPose => []
                     | Robot c => [c]
                     | _ => []
                     end) t.

(** The camera operations. *)
Definition camera_events (t : list Event) : list Event :=
  filter (fun e => match e with
                   | CapRelease _ | CapOpen _ => true
                   | _ => false
                   end) t.

(** One clock value per call of [move_to_qr] in a run. *)
Definition dispatch_times (log : list LogEntry) : list Q :=
  flat_map (fun entry => match fst entry with
                         | Some time => map (fun _ => time) (dispatches (snd entry))
                         | None => []
                         end) log.

(** How many of the clock values [ds] lie in the window [[a, a + len]]. *)
Definition count_in_window (len a : Q) (ds : list Q) : nat :=
  List.length (filter (fun d => Qle_bool a d && Qle_bool d (a + len)) ds).

(** Each later value exceeds each earlier one by more than [len]. *)
Fixpoint spaced (len : Q) (ds : list Q) : Prop :=
  match ds with
  | [] => True
  | d :: rest => (forall d', In d' rest -> d' - d > len) /\ spaced len rest
  end.

(** The pick sequence for a target, as robot commands. *)
Definition pick_sequence (pose : Pose) (x y z : Q) : list RobotCall :=
  [ MoveJ (setPos pose (x * 1000, y * 1000, z * 1000));
    RunInstruction "GripperClose";
    MoveJ (setPos pose (x * 1000, y * 1000, (z + 0.1) * 1000)) ].

(** A robot that acknowledges every call. *)
Definition acknowledges_all (rb : RobotLink) : Prop :=
  forall c, robot_ack rb c = true.

(** Whether every robot call of a pick at [(x, y, z)] is acknowledged. *)
Definition pick_acknowledged (rb : RobotLink) (x y z : Q) : bool :=
  let pose1 := setPos (robot_pose rb) (x * 1000, y * 1000, z * 1000) in
  let pose2 := setPos pose1 (x * 1000, y * 1000, (z + 0.1) * 1000) in
  robot_ack rb GetPose && robot_ack rb (MoveJ pose1) &&
  robot_ack rb (RunInstruction "GripperClose") && robot_ack rb (MoveJ pose2).

(** [n] is [x] with its fractional part dropped: within one of [x], no
    larger in magnitude, and [x] itself when [x] is an integer. *)
Definition truncates (x : Q) (n : Z) : Prop :=
  Qabs (x - inject_Z n) < 1 /\
  Qabs (inject_Z n) <= Qabs x /\
  (forall k : Z, x == inject_Z k -> n = k).

(** ** A synthetic camera for concrete runs

    A frame is given by its shape and the markers painted on it, each with a
    colour tint; the grey image forgets the tints and the detector reads the
    markers back. *)

Record SynthFrame : Type := mkSynth {
  synth_shape : Z * Z;
  synth_markers : list (Marker * Z)
}.

Definition synth_gray (f : SynthFrame) : (Z * Z) * list Marker :=
  (synth_shape f, map fst (synth_markers f)).

#[export] Instance SyntheticCV : OpenCV := {|
  Frame := SynthFrame;
  Gray := (Z * Z) * list Marker;
  bilateralFilter := fun f => f;
  cvtColor_BGR2GRAY := synth_gray;
  frame_shape := synth_shape;
  detectMarkers := snd
|}.

Definition square (cx cy half : Q) : Quad :=
  {| c0 := (cx - half, cy - half); c1 := (cx + half, cy - half);
     c2 := (cx + half, cy + half); c3 := (cx - half, cy + half) |}.

(** Tag 1 centred on pixel (740, 260), tag 2 on (200, 500), and tag 3 on
    the unit square, whose centre (1/2, 1/2) is not a pixel. *)
Definition tag1 : Marker := {| marker_id := 1; marker_corners := square 740 260 10 |}.
Definition tag2 : Marker := {| marker_id := 2; marker_corners := square 200 500 10 |}.
Definition tag3 : Marker := {| marker_id := 3; marker_corners := square 0.5 0.5 0.5 |}.

Definition frame_720p (markers : list (Marker * Z)) : SynthFrame :=
  {| synth_shape := (720%Z, 1280%Z); synth_markers := markers |}.

Definition home_pose : Pose :=
  {| rotation := [1; 0; 0; 0; 1; 0; 0; 0; 1]; position := (0, 0, 0) |}.

Definition good_robot : RobotLink :=
  {| robot_pose := home_pose; robot_ack := fun _ => true |}.

(** A robot that refuses every move. *)
Definition faulty_robot : RobotLink :=
  {| robot_pose := home_pose;
     robot_ack := fun c => match c with MoveJ _ => false | _ => true end |}.

Definition tick_seeing (markers : list (Marker * Z)) (time : Q) (rb : RobotLink)
  : TickInput :=
  {| cam_read := Some (frame_720p markers); now := time; robot := rb |}.

Definition all_cameras : Z -> bool := fun _ => true.
Definition only_camera_0 : Z -> bool := fun i => Z.eqb i 0.

(** ** close_app

    [close_app] stops the timer, releases the capture if there is one and
    closes the window.  The timer and the window are outside [Event], so its
    steps are listed in a type of their own. *)

Inductive ShutdownStep : Type :=
| StopTimer
| Core (e : Event)
| CloseWindow.

Definition close_app (s : App) : list ShutdownStep * App :=
  (StopTimer ::
   (match cap s with
    | Some c => [Core (CapRelease (device c))]
    | None => []
    end ++ [CloseWindow])%list,
   s).

Definition core_events (steps : list ShutdownStep) : list Event :=
  flat_map (fun st => match st with Core e => [e] | _ => [] end) steps.

(** ** Further observations *)

(** All events of a run, in order. *)
Definition log_events (log : list LogEntry) : list Event :=
  flat_map snd log.

(** Every call made to the robot, pose queries included. *)
Definition robot_calls (t : list Event) : list RobotCall :=
  flat_map (fun e => match e with Robot c => [c] | _ => [] end) t.

(** The calls of [calls] up to and including the first one [ack] refuses. *)
Fixpoint until_refused (ack : RobotCall -> bool) (calls : list RobotCall)
  : list RobotCall :=
  match calls with
  | [] => []
  | c :: rest => c :: (if ack c then until_refused ack rest else [])
  end.

(** Follows the capture objects through a list of events: [held] is the
    device of the capture that exists and has not been released.  The result
    is [None] when a capture is created while another is still held, or when
    something other than the held capture is released. *)
Fixpoint camera_protocol (held : option Z) (evs : list Event) : option (option Z) :=
  match evs with
  | [] => Some held
  | CapOpen d :: rest =>
      match held with
      | None => camera_protocol (Some d) rest
      | Some _ => None
      end
  | CapRelease d :: rest =>
      match held with
      | Some d' => if Z.eqb d d' then camera_protocol None rest else None
      | None => None
      end
  | _ :: rest => camera_protocol held rest
  end.

(** Every tick of [actions] meets a robot that acknowledges every call. *)
Definition obedient {cv : OpenCV} (actions : list Action) : Prop :=
  Forall (fun a => match a with
                   | Tick inp => acknowledges_all (robot inp)
                   | ChangeCamera _ _ => True
                   end) actions.

(** No camera switch of [actions] finds a device that opens. *)
Definition no_device {cv : OpenCV} (actions : list Action) : Prop :=
  Forall (fun a => match a with
                   | Tick _ => True
                   | ChangeCamera available new_index => available new_index = false
                   end) actions.

(** The four corners lie in the pixel rectangle [[0, w] x [0, h]]. *)
Definition in_frame (w h : Z) (q : Quad) : Prop :=
  Forall (fun p : Point => 0 <= fst p <= inject_Z w /\ 0 <= snd p <= inject_Z h)
         [c0 q; c1 q; c2 q; c3 q].

(** Componentwise equality of rational triples. *)
Definition triple_eq (p q : Q * Q * Q) : Prop :=
  fst (fst p) == fst (fst q) /\ snd (fst p) == snd (fst q) /\ snd p == snd q.

(** ** A colour-sensitive filter for concrete runs

    A second stand-in for the OpenCV operations, with pixels: a frame is one
    row of BGR pixels, the grey value of a pixel is its luma
    (0.114 B + 0.587 G + 0.299 R, rounded down), and the filter works in the
    manner of the bilateral filter with a box for each kernel: a pixel
    becomes the mean of the pixels at most two places away whose colour
    differs from its own by at most 75 (sum of the channel differences).
    The detector reports tag 1 when the grey row has a value below 70. *)










(** ** Basic facts *)

Lemma Qgtb_true_iff (x y : Q) : Qgtb x y = true <-> y < x.
Proof.
  unfold Qgtb. rewrite negb_true_iff. split; intro H.
  - apply Qnot_le_lt. intro Hle. apply Qle_bool_iff in Hle. congruence.
  - destruct (Qle_bool x y) eqn:E; [ | reflexivity ].
    apply Qle_bool_iff in E. exfalso. apply (Qlt_not_le _ _ H E).
Qed.

Lemma Qgtb_false_iff (x y : Q) : Qgtb x y = false <-> x <= y.
Proof.
  unfold Qgtb. rewrite negb_false_iff. apply Qle_bool_iff.
Qed.

(** [move_to_qr] leaves the object's fields alone; it is entered once and
    sends an initial part of the pick sequence. *)
Lemma move_to_qr_shape (rb : RobotLink) (x y z : Q) (s : App) :
  exists t r,
    move_to_qr rb x y z s = (t, s, r) /\
    dispatches t = [(x, y, z)] /\
    camera_events t = [] /\
    exists later, (robot_commands t ++ later)%list = pick_sequence (robot_pose rb) x y z.
Proof.
  unfold move_to_qr, bind, emit, robot_call, pick_sequence.
  destruct (robot_ack rb GetPose); cbn;
    [ | do 2 eexists; repeat split; eexists; reflexivity ].
  destruct (robot_ack rb (MoveJ _)); cbn;
    [ | do 2 eexists; repeat split; eexists; reflexivity ].
  destruct (robot_ack rb (RunInstruction _)); cbn;
    [ | do 2 eexists; repeat split; eexists; reflexivity ].
  destruct (robot_ack rb (MoveJ _)); cbn;
    do 2 eexists; repeat split; exists []; reflexivity.
Qed.

(** With every call acknowledged, [move_to_qr] runs to its end. *)
Lemma move_to_qr_ok (rb : RobotLink) (x y z : Q) (s : App) :
  acknowledges_all rb ->
  exists t,
    move_to_qr rb x y z s = (t, s, Returned tt) /\
    dispatches t = [(x, y, z)] /\
    robot_commands t = pick_sequence (robot_pose rb) x y z.
Proof.
  intro Hack.
  unfold move_to_qr, bind, emit, robot_call, pick_sequence.
  rewrite !Hack. cbn. eexists. repeat split.
Qed.

(** ** The cases of [update_frame] *)

Section UpdateFrameCases.
Context {cv : OpenCV}.
Variables (inp : TickInput) (s : App).

Lemma update_frame_no_cap :
  cap s = None -> update_frame inp s = ([], s, Raised).
Proof.
  intro Hcap. unfold update_frame, bind, get. rewrite Hcap. reflexivity.
Qed.

Lemma update_frame_closed (c : VideoCapture) :
  cap s = Some c -> opened c = false ->
  update_frame inp s = ([], set_video_label (Text camera_missing) s, Returned tt).
Proof.
  intros Hcap Hop. unfold update_frame, bind, get. rewrite Hcap, Hop. reflexivity.
Qed.

Lemma update_frame_no_frame (c : VideoCapture) :
  cap s = Some c -> opened c = true -> cam_read inp = None ->
  update_frame inp s = ([], set_video_label (Text camera_missing) s, Returned tt).
Proof.
  intros Hcap Hop Hread. unfold update_frame, bind, get.
  rewrite Hcap, Hop. cbn [negb]. rewrite Hread. reflexivity.
Qed.

Lemma update_frame_no_marker (c : VideoCapture) (frame : Frame) :
  cap s = Some c -> opened c = true -> cam_read inp = Some frame ->
  detect frame = [] ->
  update_frame inp s =
    ([], set_video_label (Pixmap (center_of frame) [])
           (set_distance_label "Distance: N/A" s), Returned tt).
Proof.
  intros Hcap Hop Hread Hdet. unfold update_frame, bind, get.
  rewrite Hcap, Hop. cbn [negb]. rewrite Hread, Hdet. reflexivity.
Qed.

Lemma update_frame_holds (c : VideoCapture) (frame : Frame)
      (first : Marker) (others : list Marker) :
  cap s = Some c -> opened c = true -> cam_read inp = Some frame ->
  detect frame = first :: others ->
  now inp - last_move_time s <= move_delay s ->
  update_frame inp s =
    ([], set_video_label
           (Pixmap (center_of frame)
                   (map (annotate (center_of frame)) (first :: others)))
           (set_distance_label "Distance: Calculated" s), Returned tt).
Proof.
  intros Hcap Hop Hread Hdet Hgate. apply Qgtb_false_iff in Hgate.
  unfold update_frame, bind, get.
  rewrite Hcap, Hop. cbn [negb]. rewrite Hread, Hdet, Hgate. reflexivity.
Qed.

Lemma update_frame_fires (c : VideoCapture) (frame : Frame)
      (first : Marker) (others : list Marker) :
  cap s = Some c -> opened c = true -> cam_read inp = Some frame ->
  detect frame = first :: others ->
  move_delay s < now inp - last_move_time s ->
  update_frame inp s =
    match target_of (center_of frame) (marker_center (marker_corners first)) with
    | (x, y, z) =>
        match move_to_qr (robot inp) x y z s with
        | (t, s1, Returned _) =>
            (t,
             set_video_label
               (Pixmap (center_of frame)
                       (map (annotate (center_of frame)) (first :: others)))
               (set_distance_label "Distance: Calculated"
                  (set_last_move_time (now inp) s1)),
             Returned tt)
        | (t, s1, Raised) => (t, s1, Raised)
        end
    end.
Proof.
  intros Hcap Hop Hread Hdet Hgate. apply Qgtb_true_iff in Hgate.
  unfold update_frame, bind at 1, get.
  rewrite Hcap, Hop. cbn [negb]. rewrite Hread, Hdet.
  do 2 unfold bind at 1. rewrite Hgate.
  unfold target_of, convert_to_robot_coordinates. cbv zeta.
  unfold bind at 1.
  destruct (move_to_qr _ _ _ _ s) as [[t s1] [[]|]]; unfold modify, bind; cbn;
    rewrite ?app_nil_r; reflexivity.
Qed.

End UpdateFrameCases.

(** What one action does to the gate: it never changes [move_delay]; either
    it does not enter [move_to_qr] and keeps [last_move_time], or it is a
    tick that enters it once, more than [move_delay] after
    [last_move_time], and on return has stored its own clock value. *)
Lemma perform_gate {cv : OpenCV} (a : Action) (s : App) :
  forall t s1 r,
    perform a s = (t, s1, r) ->
    move_delay s1 = move_delay s /\
    ((dispatches t = [] /\ last_move_time s1 = last_move_time s) \/
     (exists time tgt,
         action_time a = Some time /\
         dispatches t = [tgt] /\
         move_delay s < time - last_move_time s /\
         (r = Raised -> last_move_time s1 = last_move_time s) /\
         (r = Returned tt -> last_move_time s1 = time))).
Proof.
  intros t s1 r H. destruct a as [inp | available new_index]; cbn [perform] in H.
  - destruct (cap s) as [c|] eqn:Hcap.
    2:{ rewrite update_frame_no_cap in H by assumption.
        inversion H; subst. split; [reflexivity | left; split; reflexivity]. }
    destruct (opened c) eqn:Hop.
    2:{ rewrite (update_frame_closed _ _ c) in H by assumption.
        inversion H; subst. split; [reflexivity | left; split; reflexivity]. }
    destruct (cam_read inp) as [frame|] eqn:Hread.
    2:{ rewrite (update_frame_no_frame _ _ c) in H by assumption.
        inversion H; subst. split; [reflexivity | left; split; reflexivity]. }
    destruct (detect frame) as [|first others] eqn:Hdet.
    { rewrite (update_frame_no_marker _ _ c frame) in H by assumption.
      inversion H; subst. split; [reflexivity | left; split; reflexivity]. }
    destruct (Qlt_le_dec (move_delay s) (now inp - last_move_time s)) as [Hgt | Hle].
    + rewrite (update_frame_fires _ _ c frame first others) in H by assumption.
      destruct (target_of _ _) as [[x y] z].
      destruct (move_to_qr_shape (robot inp) x y z s) as (t0 & r0 & Heq & Hd & _).
      rewrite Heq in H. destruct r0 as [[]|]; inversion H; subst.
      * split; [reflexivity | right]. exists (now inp), (x, y, z).
        repeat split; try assumption; try reflexivity. intro; discriminate.
      * split; [reflexivity | right]. exists (now inp), (x, y, z).
        repeat split; try assumption; try reflexivity. intro; discriminate.
    + rewrite (update_frame_holds _ _ c frame first others) in H by assumption.
      inversion H; subst. split; [reflexivity | left; split; reflexivity].
  - unfold change_camera, bind, get, emit, modify, ret in H.
    destruct (cap s); cbn in H; destruct (available new_index); cbn in H;
      inversion H; subst; split; try reflexivity; left; split; reflexivity.
Qed.

(** ** Spacing of the moves along a run *)

Lemma dispatch_times_cons (time : option Q) (t : list Event) (log : list LogEntry) :
  dispatch_times ((time, t) :: log) =
    ((match time with
      | Some d => map (fun _ => d) (dispatches t)
      | None => []
      end) ++ dispatch_times log)%list.
Proof. reflexivity. Qed.

(** Along a run every move comes more than [move_delay] after the stored
    [last_move_time], and the moves are spaced by more than [move_delay]. *)
Lemma run_spaced {cv : OpenCV} (actions : list Action) :
  forall s log s' r,
    0 <= move_delay s ->
    run actions s = (log, s', r) ->
    spaced (move_delay s) (dispatch_times log) /\
    (forall d, In d (dispatch_times log) -> move_delay s < d - last_move_time s).
Proof.
  induction actions as [|a rest IH]; intros s log s' r Hpos Hrun; cbn [run] in Hrun.
  - inversion Hrun; subst. cbn. split; [exact I | intros d []].
  - destruct (perform a s) as [[t s1] r1] eqn:Hperf.
    destruct (perform_gate a s t s1 r1 Hperf) as [Hdelay Hgate].
    destruct r1 as [[]|].
    + destruct (run rest s1) as [[log1 s2] r2] eqn:Hrest.
      inversion Hrun; subst; clear Hrun.
      assert (Hpos1 : 0 <= move_delay s1) by (rewrite Hdelay; exact Hpos).
      destruct (IH s1 log1 s' r Hpos1 Hrest) as [Hsp Hafter].
      rewrite Hdelay in Hsp, Hafter.
      rewrite dispatch_times_cons.
      destruct Hgate as [[Hnone Hlast] | (time & tgt & Htime & Hone & Hgt & _ & Hlast)].
      * rewrite Hnone. destruct (action_time a); cbn [map app];
          (split; [exact Hsp | intros d Hd; rewrite <- Hlast; apply Hafter, Hd]).
      * rewrite Htime, Hone. cbn [map app]. specialize (Hlast eq_refl).
        rewrite Hlast in Hafter. split.
        -- cbn [spaced]. split; [ | exact Hsp ].
           intros d' Hd'. apply Hafter, Hd'.
        -- intros d [Hd | Hd]; [ subst d; exact Hgt | ].
           specialize (Hafter d Hd). lra.
    + inversion Hrun; subst; clear Hrun.
      rewrite dispatch_times_cons. cbn [dispatch_times flat_map]. rewrite app_nil_r.
      destruct Hgate as [[Hnone _] | (time & tgt & Htime & Hone & Hgt & _ & _)].
      * rewrite Hnone. destruct (action_time a); cbn; (split; [exact I | intros d []]).
      * rewrite Htime, Hone. cbn. split.
        -- split; [ intros d' [] | exact I ].
        -- intros d [Hd | []]. subst d. exact Hgt.
Qed.

(** Values spaced by more than [len] put at most one of them in a window of
    length [len]. *)
Lemma spaced_window (len a : Q) (ds : list Q) :
  0 <= len -> spaced len ds -> (count_in_window len a ds <= 1)%nat.
Proof.
  intros Hpos. unfold count_in_window.
  induction ds as [|d rest IH]; intros Hsp; cbn [filter].
  - cbn. lia.
  - destruct Hsp as [Hafter Hsp].
    destruct (Qle_bool a d && Qle_bool d (a + len)) eqn:Hin.
    + apply andb_true_iff in Hin. destruct Hin as [Hlo _].
      apply Qle_bool_iff in Hlo.
      assert (Hnone : filter (fun d0 => Qle_bool a d0 && Qle_bool d0 (a + len)) rest = []).
      { clear IH Hsp. induction rest as [|e rest IHr]; [reflexivity | ].
        cbn [filter].
        assert (He : len < e - d) by (apply Hafter; left; reflexivity).
        replace (Qle_bool e (a + len)) with false.
        - rewrite andb_false_r. apply IHr. intros d' Hd'. apply Hafter. right. exact Hd'.
        - symmetry. destruct (Qle_bool e (a + len)) eqn:E; [ | reflexivity ].
          apply Qle_bool_iff in E. lra. }
      rewrite Hnone. cbn. lia.
    + apply IH, Hsp.
Qed.

(** ** A tick whose gate opens *)

(** [move_to_qr] returns exactly when all four robot calls of the pick are
    acknowledged. *)
Lemma move_to_qr_outcome (rb : RobotLink) (x y z : Q) (s : App) :
  snd (move_to_qr rb x y z s) =
    if pick_acknowledged rb x y z then Returned tt else Raised.
Proof.
  unfold move_to_qr, pick_acknowledged, bind, emit, robot_call. cbv zeta.
  destruct (robot_ack rb GetPose); cbn; [ | reflexivity ].
  destruct (robot_ack rb (MoveJ _)); cbn; [ | reflexivity ].
  destruct (robot_ack rb (RunInstruction _)); cbn; [ | reflexivity ].
  destruct (robot_ack rb (MoveJ _)); cbn; reflexivity.
Qed.

Lemma acknowledges_all_pick (rb : RobotLink) (x y z : Q) :
  acknowledges_all rb -> pick_acknowledged rb x y z = true.
Proof.
  intro Hall. unfold pick_acknowledged. cbv zeta. rewrite !Hall. reflexivity.
Qed.

(** The whole effect of a tick whose gate opens: one entry into
    [move_to_qr]; then either the pick completes and the tick stores its
    clock value and the labels, or a robot call raises and nothing is
    stored. *)
Lemma update_frame_fired {cv : OpenCV} (inp : TickInput) (s : App)
      (c : VideoCapture) (frame : Frame) (first : Marker) (others : list Marker) :
  cap s = Some c -> opened c = true ->
  cam_read inp = Some frame ->
  detect frame = first :: others ->
  move_delay s < now inp - last_move_time s ->
  match target_of (center_of frame) (marker_center (marker_corners first)) with
  | (x, y, z) =>
      exists t,
        dispatches t = [(x, y, z)] /\
        update_frame inp s =
          if pick_acknowledged (robot inp) x y z
          then (t,
                set_video_label
                  (Pixmap (center_of frame)
                          (map (annotate (center_of frame)) (first :: others)))
                  (set_distance_label "Distance: Calculated"
                     (set_last_move_time (now inp) s)),
                Returned tt)
          else (t, s, Raised)
  end.
Proof.
  intros Hcap Hop Hread Hdet Hgate.
  rewrite (update_frame_fires inp s c frame first others Hcap Hop Hread Hdet Hgate).
  destruct (target_of _ _) as [[x y] z].
  pose proof (move_to_qr_outcome (robot inp) x y z s) as Hout.
  destruct (move_to_qr_shape (robot inp) x y z s) as (t & r & Heq & Hd & _).
  rewrite Heq in Hout |- *. cbn [snd] in Hout.
  exists t. split; [exact Hd | ].
  destruct (pick_acknowledged (robot inp) x y z); subst r; reflexivity.
Qed.

(** Whatever a tick hands to [move_to_qr] is the target of the centre of the
    first marker detected in the frame it read. *)
Lemma update_frame_dispatch_inv {cv : OpenCV} (inp : TickInput) (s : App)
      (tgt : Q * Q * Q) :
  In tgt (dispatches (fst (fst (update_frame inp s)))) ->
  exists frame first others,
    cam_read inp = Some frame /\
    detect frame = first :: others /\
    tgt = target_of (center_of frame) (marker_center (marker_corners first)).
Proof.
  intro Hin.
  destruct (cap s) as [c|] eqn:Hcap.
  2:{ rewrite update_frame_no_cap in Hin by assumption. destruct Hin. }
  destruct (opened c) eqn:Hop.
  2:{ rewrite (update_frame_closed _ _ c) in Hin by assumption. destruct Hin. }
  destruct (cam_read inp) as [frame|] eqn:Hread.
  2:{ rewrite (update_frame_no_frame _ _ c) in Hin by assumption. destruct Hin. }
  destruct (detect frame) as [|first others] eqn:Hdet.
  { rewrite (update_frame_no_marker _ _ c frame) in Hin by assumption. destruct Hin. }
  destruct (Qlt_le_dec (move_delay s) (now inp - last_move_time s)) as [Hgt | Hle].
  - exists frame, first, others. repeat split; try assumption.
    pose proof (update_frame_fired inp s c frame first others
                  Hcap Hop Hread Hdet Hgt) as Hfired.
    destruct (target_of _ _) as [[x y] z].
    destruct Hfired as (t & Hd & Heq). rewrite Heq in Hin.
    assert (Hin' : In tgt (dispatches t))
      by (destruct (pick_acknowledged _ _ _ _); exact Hin).
    rewrite Hd in Hin'. destruct Hin' as [H | []]. symmetry. exact H.
  - rewrite (update_frame_holds _ _ c frame first others) in Hin by assumption.
    destruct Hin.
Qed.

(** ** Rounding *)

Lemma inject_Z_sub (x y : Z) : inject_Z (x - y) = inject_Z x - inject_Z y.
Proof.
  unfold Z.sub, Qminus. rewrite inject_Z_plus, inject_Z_opp. reflexivity.
Qed.

Lemma astype_int_truncates (x : Q) : truncates x (astype_int x).
Proof.
  unfold truncates, astype_int.
  destruct (Qle_bool 0 x) eqn:Hsign.
  - apply Qle_bool_iff in Hsign.
    pose proof (Qfloor_le x) as Hlo.
    pose proof (Qlt_floor x) as Hhi.
    rewrite inject_Z_plus in Hhi. change (inject_Z 1) with 1 in Hhi.
    assert (Hnn : 0 <= inject_Z (Qfloor x)).
    { change 0 with (inject_Z 0). rewrite <- Zle_Qle.
      rewrite <- (Qfloor_Z 0). apply Qfloor_resp_le. exact Hsign. }
    repeat split.
    + apply Qabs_case; intros; lra.
    + apply Qabs_case; intros; apply Qabs_case; intros; lra.
    + intros k Hk. rewrite (Qfloor_comp _ _ Hk). apply Qfloor_Z.
  - assert (Hneg : x < 0).
    { apply Qnot_le_lt. intro H. apply Qle_bool_iff in H. congruence. }
    pose proof (Qle_ceiling x) as Hhi.
    pose proof (Qceiling_lt x) as Hlo.
    rewrite inject_Z_sub in Hlo. change (inject_Z 1) with 1 in Hlo.
    assert (Hnp : inject_Z (Qceiling x) <= 0).
    { change 0 with (inject_Z 0). rewrite <- Zle_Qle.
      rewrite <- (Qceiling_Z 0). apply Qceiling_resp_le.
      change (inject_Z 0) with 0. lra. }
    repeat split.
    + apply Qabs_case; intros; lra.
    + apply Qabs_case; intros; apply Qabs_case; intros; lra.
    + intros k Hk. rewrite (Qceiling_comp _ _ Hk). apply Qceiling_Z.
Qed.

(** * The claims *)

(** ** The time gate *)

(** C1.  Along every run from start-up (timer ticks and camera switches in
    any order, with any frames, clock values and robot behaviour, followed
    up to the first call that raises), at most one call of [move_to_qr] has
    its clock value in any window [[a, a + move_delay]], with
    [move_delay = 3] seconds; this holds in particular when every tick of
    the window sees a marker. *)
Theorem at_most_one_move_per_window {cv : OpenCV}
        (available : Z -> bool) (actions : list Action) (a : Q) :
  (count_in_window (move_delay (init available)) a
     (dispatch_times (fst (fst (run actions (init available))))) <= 1)%nat.
Proof.
  destruct (run actions (init available)) as [[log s'] r] eqn:Hrun.
  cbn [fst].
  assert (Hpos : 0 <= move_delay (init available)) by (cbn; lra).
  apply spaced_window; [exact Hpos | ].
  exact (proj1 (run_spaced actions _ log s' r Hpos Hrun)).
Qed.

(** Five ticks that all see a marker within the three seconds after a move:
    the first tick moves the robot, the next four do not. *)
Example five_ticks_one_move :
  map (fun entry => dispatches (snd entry))
      (fst (fst (run (map (fun time => Tick (tick_seeing [(tag1, 0%Z)] time good_robot))
                          [10; 10.5; 11; 12; 13])
                     (init all_cameras))))
  = [[(0.100, 0.100, 0.1)]; []; []; []; []].
Proof. vm_compute. reflexivity. Qed.

(** C2 as stated fails at the boundary: with [last_move_time = 0] and
    [move_delay = 3], a tick at clock value 3 that sees two markers has
    [now - last_move_time >= move_delay], yet it calls no robot function and
    leaves [last_move_time] at 0. *)
Lemma gate_closed_at_boundary :
  let inp := tick_seeing [(tag1, 0%Z); (tag2, 5%Z)] 3 good_robot in
  let s := init all_cameras in
  detect (frame_720p [(tag1, 0%Z); (tag2, 5%Z)]) = [tag1; tag2] /\
  now inp - last_move_time s >= move_delay s /\
  match update_frame inp s with
  | (t, s1, r) => t = [] /\ last_move_time s1 = 0 /\ ~ last_move_time s1 == now inp
  end.
Proof.
  cbv zeta. split; [reflexivity | ]. split.
  - cbn. lra.
  - vm_compute. repeat split. intro H. discriminate H.
Qed.

(** C2, amended.  On a tick that reads a frame with at least one marker:
    if the clock value exceeds [last_move_time] by strictly more than
    [move_delay], [move_to_qr] is called exactly once, with the target of
    the first marker in detector order, and when the robot acknowledges
    every call the tick returns with [last_move_time] set to that clock
    value; if it does not, at the exact boundary in particular, the tick
    emits nothing and keeps [last_move_time]. *)
Theorem gate_fires_after_delay {cv : OpenCV} (inp : TickInput) (s : App)
        (c : VideoCapture) (frame : Frame) (first : Marker) (others : list Marker) :
  cap s = Some c -> opened c = true ->
  cam_read inp = Some frame ->
  detect frame = first :: others ->
  match update_frame inp s with
  | (t, s1, r) =>
      (now inp - last_move_time s > move_delay s ->
       dispatches t =
         [target_of (center_of frame) (marker_center (marker_corners first))] /\
       (acknowledges_all (robot inp) ->
        r = Returned tt /\ last_move_time s1 = now inp)) /\
      (now inp - last_move_time s <= move_delay s ->
       t = [] /\ r = Returned tt /\ last_move_time s1 = last_move_time s)
  end.
Proof.
  intros Hcap Hop Hread Hdet.
  destruct (Qlt_le_dec (move_delay s) (now inp - last_move_time s)) as [Hgate | Hshut].
  - pose proof (update_frame_fired inp s c frame first others
                  Hcap Hop Hread Hdet Hgate) as Hfired.
    destruct (target_of _ _) as [[x y] z].
    destruct Hfired as (t & Hd & Heq). rewrite Heq.
    destruct (pick_acknowledged (robot inp) x y z) eqn:Hpick.
    + split; [ | intros Hle; lra ].
      intros _. split; [exact Hd | ]. intros _. split; reflexivity.
    + split; [ | intros Hle; lra ].
      intros _. split; [exact Hd | ]. intros Hall.
      rewrite (acknowledges_all_pick (robot inp) x y z Hall) in Hpick.
      discriminate Hpick.
  - rewrite (update_frame_holds inp s c frame first others Hcap Hop Hread Hdet Hshut).
    split; [ intros Hgt; lra | ].
    intros _. repeat split.
Qed.

(** The amended C2 on a tick at clock value 4 that sees tags 1 and 2. *)
Lemma gate_fires_after_delay_witness :
  match update_frame (tick_seeing [(tag1, 0%Z); (tag2, 5%Z)] 4 good_robot)
                     (init all_cameras) with
  | (t, s1, r) =>
      dispatches t =
        [target_of (center_of (frame_720p [(tag1, 0%Z); (tag2, 5%Z)]))
                   (marker_center (marker_corners tag1))] /\
      r = Returned tt /\ last_move_time s1 = 4
  end.
Proof.
  pose proof (gate_fires_after_delay
                (tick_seeing [(tag1, 0%Z); (tag2, 5%Z)] 4 good_robot)
                (init all_cameras)
                {| device := 0; opened := true |}
                (frame_720p [(tag1, 0%Z); (tag2, 5%Z)]) tag1 [tag2]
                eq_refl eq_refl eq_refl eq_refl) as H.
  destruct (update_frame (tick_seeing [(tag1, 0%Z); (tag2, 5%Z)] 4 good_robot)
                         (init all_cameras)) as [[t s1] r].
  destruct H as [Hfire _].
  destruct (Hfire eq_refl) as [Hd Hack].
  destruct (Hack (fun c => eq_refl)) as [Hr Hlast].
  split; [exact Hd | ]. split; [exact Hr | exact Hlast].
Defined.

(** C10.  [__init__] stores [last_move_time = 0] and [move_delay = 3]; on
    the first tick with camera 0 opened, a frame read and at least one marker
    detected at a clock value above [move_delay], [move_to_qr] is called at
    once, for the first marker. *)
Theorem first_tick_fires {cv : OpenCV} (available : Z -> bool) (inp : TickInput)
        (frame : Frame) (first : Marker) (others : list Marker) :
  available 0%Z = true ->
  cam_read inp = Some frame ->
  detect frame = first :: others ->
  now inp > move_delay (init available) ->
  last_move_time (init available) = 0 /\
  move_delay (init available) = 3 /\
  match update_frame inp (init available) with
  | (t, s1, r) =>
      dispatches t =
        [target_of (center_of frame) (marker_center (marker_corners first))] /\
      (acknowledges_all (robot inp) ->
       r = Returned tt /\ last_move_time s1 = now inp)
  end.
Proof.
  intros Hav Hread Hdet Hnow. split; [reflexivity | ]. split; [reflexivity | ].
  assert (Hgate : move_delay (init available)
                  < now inp - last_move_time (init available))
    by (cbn in *; lra).
  pose proof (update_frame_fired inp (init available)
                {| device := 0; opened := available 0%Z |} frame first others
                eq_refl Hav Hread Hdet Hgate) as Hfired.
  destruct (target_of _ _) as [[x y] z].
  destruct Hfired as (t & Hd & Heq). rewrite Heq.
  destruct (pick_acknowledged (robot inp) x y z) eqn:Hpick.
  - split; [exact Hd | ]. intros _. split; reflexivity.
  - split; [exact Hd | ]. intros Hall.
    rewrite (acknowledges_all_pick (robot inp) x y z Hall) in Hpick.
    discriminate Hpick.
Qed.

(** C10 on a first tick at clock value 3.5 that sees tag 2. *)
Lemma first_tick_fires_witness :
  last_move_time (init only_camera_0) = 0 /\
  move_delay (init only_camera_0) = 3 /\
  match update_frame (tick_seeing [(tag2, 7%Z)] 3.5 good_robot) (init only_camera_0) with
  | (t, s1, r) =>
      dispatches t =
        [target_of (center_of (frame_720p [(tag2, 7%Z)]))
                   (marker_center (marker_corners tag2))] /\
      (acknowledges_all good_robot -> r = Returned tt /\ last_move_time s1 = 3.5)
  end.
Proof.
  apply (first_tick_fires only_camera_0 (tick_seeing [(tag2, 7%Z)] 3.5 good_robot)
           (frame_720p [(tag2, 7%Z)]) tag2 []); reflexivity.
Defined.

(** C6.  A tick that reads a frame in which no marker is detected emits no
    event at all (so [move_to_qr] is not entered and the robot gets no
    call), returns, and leaves [last_move_time] and [move_delay] as they
    were. *)
Theorem no_marker_no_move {cv : OpenCV} (inp : TickInput) (s : App)
        (c : VideoCapture) (frame : Frame) :
  cap s = Some c -> opened c = true ->
  cam_read inp = Some frame ->
  detect frame = [] ->
  match update_frame inp s with
  | (t, s1, r) =>
      t = [] /\ dispatches t = [] /\ robot_commands t = [] /\
      r = Returned tt /\
      last_move_time s1 = last_move_time s /\
      move_delay s1 = move_delay s /\
      cap s1 = cap s
  end.
Proof.
  intros Hcap Hop Hread Hdet.
  rewrite (update_frame_no_marker inp s c frame Hcap Hop Hread Hdet).
  repeat split.
Qed.

(** C6 on a tick at clock value 100 whose frame shows no marker. *)
Lemma no_marker_no_move_witness :
  match update_frame (tick_seeing [] 100 good_robot) (init all_cameras) with
  | (t, s1, r) =>
      t = [] /\ dispatches t = [] /\ robot_commands t = [] /\
      r = Returned tt /\
      last_move_time s1 = last_move_time (init all_cameras) /\
      move_delay s1 = move_delay (init all_cameras) /\
      cap s1 = cap (init all_cameras)
  end.
Proof.
  apply (no_marker_no_move (tick_seeing [] 100 good_robot) (init all_cameras)
           {| device := 0; opened := true |} (frame_720p []));
    reflexivity.
Defined.

(** ** A robot call that fails *)

(** C3 as stated fails: from start-up, a tick at clock value 10 sees a
    marker, the gate opens and the move is sent to the robot, which refuses
    it.  [update_frame] raises with [last_move_time] still 0, not 10, and
    [update_frame] run on that state 0.03 seconds later enters [move_to_qr]
    again. *)
Lemma failed_move_keeps_old_timestamp :
  match update_frame (tick_seeing [(tag1, 0%Z)] 10 faulty_robot) (init all_cameras) with
  | (t, s1, r) =>
      dispatches t = [(0.100, 0.100, 0.1)] /\
      robot_commands t = [MoveJ (setPos home_pose (100.000, 100.000, 100.0))] /\
      r = Raised /\
      last_move_time s1 = 0 /\ ~ last_move_time s1 == 10 /\
      dispatches (fst (fst (update_frame
                              (tick_seeing [(tag1, 0%Z)] 10.03 faulty_robot) s1)))
      = [(0.100, 0.100, 0.1)]
  end.
Proof.
  vm_compute. repeat split. intro H. discriminate H.
Qed.

(** C3, amended.  When the gate opens, [move_to_qr] is entered with the
    first marker's target.  If the robot acknowledges every call of the
    pick, the tick returns and [last_move_time] is the clock value read
    before the move was sent.  If some call raises, [update_frame] raises
    and every field, [last_move_time] included, is as before the tick. *)
Theorem timestamp_follows_move_outcome {cv : OpenCV} (inp : TickInput) (s : App)
        (c : VideoCapture) (frame : Frame) (first : Marker) (others : list Marker) :
  cap s = Some c -> opened c = true ->
  cam_read inp = Some frame ->
  detect frame = first :: others ->
  now inp - last_move_time s > move_delay s ->
  match target_of (center_of frame) (marker_center (marker_corners first)) with
  | (x, y, z) =>
      match update_frame inp s with
      | (t, s1, r) =>
          dispatches t = [(x, y, z)] /\
          if pick_acknowledged (robot inp) x y z
          then r = Returned tt /\ last_move_time s1 = now inp
          else r = Raised /\ s1 = s
      end
  end.
Proof.
  intros Hcap Hop Hread Hdet Hgate.
  pose proof (update_frame_fired inp s c frame first others
                Hcap Hop Hread Hdet Hgate) as Hfired.
  destruct (target_of _ _) as [[x y] z].
  destruct Hfired as (t & Hd & Heq). rewrite Heq.
  destruct (pick_acknowledged (robot inp) x y z).
  - split; [exact Hd | split; reflexivity].
  - split; [exact Hd | split; reflexivity].
Qed.

(** The amended C3 on a tick whose move the robot refuses. *)
Lemma timestamp_follows_move_outcome_witness :
  match update_frame (tick_seeing [(tag2, 0%Z)] 10 faulty_robot) (init all_cameras) with
  | (t, s1, r) =>
      dispatches t = [(-0.440, -0.140, 0.1)] /\
      r = Raised /\ s1 = init all_cameras
  end.
Proof.
  exact (timestamp_follows_move_outcome
           (tick_seeing [(tag2, 0%Z)] 10 faulty_robot) (init all_cameras)
           {| device := 0; opened := true |} (frame_720p [(tag2, 0%Z)]) tag2 []
           eq_refl eq_refl eq_refl eq_refl eq_refl).
Defined.

(** ** The coordinate transform and the pick sequence *)

(** C4.  For a marker centre and a frame centre in pixels, the target is
    [x = (centre.x - origin.x) * 0.001], [y = (origin.y - centre.y) * 0.001],
    [z = 0.1] whatever the input; a 1280 by 720 frame has origin (640, 360)
    and the centre (740, 260) gives (0.1, 0.1, 0.1); centres at
    [origin + d] and [origin - d] give negated [x] and [y]. *)
Theorem transform_is_linear_and_odd :
  (forall rel_x rel_y : Q,
      match convert_to_robot_coordinates rel_x rel_y with
      | (x, y, z) => x == rel_x * 0.001 /\ y == rel_y * 0.001 /\ z = 0.1
      end) /\
  (forall origin centre : Z * Z,
      match target_of origin centre with
      | (x, y, z) =>
          x == (inject_Z (fst centre) - inject_Z (fst origin)) * 0.001 /\
          y == (inject_Z (snd origin) - inject_Z (snd centre)) * 0.001 /\
          z = 0.1
      end) /\
  ((1280 / 2)%Z, (720 / 2)%Z) = (640%Z, 360%Z) /\
  (match target_of (640%Z, 360%Z) (740%Z, 260%Z) with
   | (x, y, z) => x == 0.1 /\ y == 0.1 /\ z = 0.1
   end) /\
  (forall origin d : Z * Z,
      match target_of origin ((fst origin + fst d)%Z, (snd origin + snd d)%Z),
            target_of origin ((fst origin - fst d)%Z, (snd origin - snd d)%Z) with
      | (x, y, z), (x', y', z') => x' == - x /\ y' == - y /\ z' = z
      end).
Proof.
  split; [ | split; [ | split; [ | split ] ] ].
  - intros rel_x rel_y. cbn. repeat split; field.
  - intros [ox oy] [cx cy]. unfold target_of, relative, convert_to_robot_coordinates.
    cbn [fst snd]. rewrite !inject_Z_sub. repeat split; field.
  - reflexivity.
  - vm_compute. repeat split.
  - intros [ox oy] [dx dy]. unfold target_of, relative, convert_to_robot_coordinates.
    cbn [fst snd]. repeat split.
    + rewrite !inject_Z_sub, !inject_Z_plus. field.
    + rewrite !inject_Z_sub, !inject_Z_plus. field.
Qed.

(** C5.  [move_to_qr x y z] sends the robot an initial part of the sequence
    move to [(x, y, z)], close the gripper, move to [(x, y, z + 0.1)], each
    position multiplied by 1000 and the orientation that of the pose read
    from the robot; it never touches the object's fields; and with every
    call acknowledged it sends the whole sequence, nothing more, and
    returns. *)
Theorem pick_is_move_close_lift (rb : RobotLink) (x y z : Q) (s : App) :
  match move_to_qr rb x y z s with
  | (t, s1, r) =>
      s1 = s /\
      (exists later,
          (robot_commands t ++ later)%list =
            [ MoveJ {| rotation := rotation (robot_pose rb);
                       position := (x * 1000, y * 1000, z * 1000) |};
              RunInstruction "GripperClose";
              MoveJ {| rotation := rotation (robot_pose rb);
                       position := (x * 1000, y * 1000, (z + 0.1) * 1000) |} ]) /\
      (acknowledges_all rb ->
       r = Returned tt /\
       robot_commands t =
         [ MoveJ {| rotation := rotation (robot_pose rb);
                    position := (x * 1000, y * 1000, z * 1000) |};
           RunInstruction "GripperClose";
           MoveJ {| rotation := rotation (robot_pose rb);
                    position := (x * 1000, y * 1000, (z + 0.1) * 1000) |} ])
  end.
Proof.
  destruct (move_to_qr_shape rb x y z s) as (t & r & Heq & _ & _ & Hprefix).
  rewrite Heq. split; [reflexivity | ]. split; [exact Hprefix | ].
  intros Hack. destruct (move_to_qr_ok rb x y z s Hack) as (t' & Heq' & _ & Hcmds).
  rewrite Heq in Heq'. inversion Heq'; subst. split; [reflexivity | exact Hcmds].
Qed.

(** C5 for the target (0.1, 0.1, 0.1) and a robot that acknowledges. *)
Lemma pick_is_move_close_lift_witness :
  robot_commands (fst (fst (move_to_qr good_robot 0.1 0.1 0.1 (init all_cameras)))) =
    [ MoveJ {| rotation := rotation home_pose;
               position := (0.1 * 1000, 0.1 * 1000, 0.1 * 1000) |};
      RunInstruction "GripperClose";
      MoveJ {| rotation := rotation home_pose;
               position := (0.1 * 1000, 0.1 * 1000, (0.1 + 0.1) * 1000) |} ].
Proof.
  pose proof (pick_is_move_close_lift good_robot 0.1 0.1 0.1 (init all_cameras)) as H.
  destruct (move_to_qr good_robot 0.1 0.1 0.1 (init all_cameras)) as [[t s1] r].
  destruct H as (_ & _ & Hall). cbn [fst].
  exact (proj2 (Hall (fun c => eq_refl))).
Defined.

(** ** Detection and the marker centre *)




(** C8 as stated fails: the corners of tag 3 have mean (1/2, 1/2), and the
    centre the pipeline uses, for the overlay and for the move it sends, is
    the pixel (0, 0). *)
Lemma centre_is_not_the_exact_mean :
  let q := marker_corners tag3 in
  fst (corner_mean q) == 1 # 2 /\
  snd (corner_mean q) == 1 # 2 /\
  marker_center q = (0%Z, 0%Z) /\
  ~ inject_Z (fst (marker_center q)) == fst (corner_mean q) /\
  ~ inject_Z (snd (marker_center q)) == snd (corner_mean q) /\
  ann_center (annotate (640%Z, 360%Z) tag3) = (0%Z, 0%Z) /\
  dispatches (fst (fst (update_frame (tick_seeing [(tag3, 0%Z)] 10 good_robot)
                                     (init all_cameras))))
  = [target_of (640%Z, 360%Z) (0%Z, 0%Z)].
Proof.
  cbv zeta. repeat split; try reflexivity; intro H; discriminate H.
Qed.

(** C8, amended.  The centre the pipeline uses for a marker is the mean of
    its four corners with the fractional part of each coordinate dropped
    ([astype(int)]): every target a tick hands to [move_to_qr] is computed
    from that centre of the first detected marker, every overlay entry
    carries that centre, and each coordinate of it is within one pixel of
    the exact mean, no larger in magnitude, and equal to it when the mean is
    an integer. *)
Theorem centre_is_truncated_mean {cv : OpenCV} (inp : TickInput) (s : App) :
  (forall tgt,
      In tgt (dispatches (fst (fst (update_frame inp s)))) ->
      exists frame first others,
        cam_read inp = Some frame /\
        detect frame = first :: others /\
        tgt = target_of (center_of frame) (marker_center (marker_corners first))) /\
  (forall origin m,
      ann_center (annotate origin m) = marker_center (marker_corners m) /\
      ann_rel (annotate origin m) = relative origin (marker_center (marker_corners m))) /\
  (forall q,
      truncates (fst (corner_mean q)) (fst (marker_center q)) /\
      truncates (snd (corner_mean q)) (snd (marker_center q))).
Proof.
  split; [ | split ].
  - intros tgt. apply update_frame_dispatch_inv.
  - intros origin m. split; reflexivity.
  - intros q. split; apply astype_int_truncates.
Qed.

(** The amended C8 on the tick that sees tag 3: the target sent is that of
    the centre (0, 0), which truncates the mean 1/2. *)
Lemma centre_is_truncated_mean_witness :
  (exists frame first others,
      cam_read (tick_seeing [(tag3, 0%Z)] 10 good_robot) = Some frame /\
      detect frame = first :: others /\
      target_of (640%Z, 360%Z) (0%Z, 0%Z) =
        target_of (center_of frame) (marker_center (marker_corners first))) /\
  truncates (fst (corner_mean (marker_corners tag3))) 0.
Proof.
  destruct (centre_is_truncated_mean (tick_seeing [(tag3, 0%Z)] 10 good_robot)
              (init all_cameras)) as (Hsent & _ & Htrunc).
  split.
  - apply Hsent. vm_compute. left. reflexivity.
  - exact (proj1 (Htrunc (marker_corners tag3))).
Defined.

(** ** Switching the camera *)

(** C9.  [change_camera] with a capture in place first releases it and only
    then opens the requested device, and it returns.  When the requested
    device does not open, the label reads "Camera not plugged in", the
    closed capture is kept, and every later tick returns without touching
    the robot or the state. *)
Theorem change_camera_releases_first
        (available : Z -> bool) (new_index : Z) (s : App) (old : VideoCapture) :
  cap s = Some old ->
  match change_camera available new_index s with
  | (t, s1, r) =>
      r = Returned tt /\
      camera_events t = [CapRelease (device old); CapOpen new_index] /\
      cap s1 = Some {| device := new_index; opened := available new_index |} /\
      last_move_time s1 = last_move_time s /\
      move_delay s1 = move_delay s /\
      (available new_index = false ->
       video_label s1 = Text camera_missing /\
       forall (cv : OpenCV) (inp : TickInput),
         update_frame inp s1 = ([], s1, Returned tt))
  end.
Proof.
  intro Hcap. unfold change_camera, bind, get, emit, modify. rewrite Hcap. cbn.
  destruct (available new_index) eqn:Hav; cbn.
  - do 5 (split; [reflexivity | ]). intro H. discriminate H.
  - do 5 (split; [reflexivity | ]). intros _. split; [reflexivity | ].
    intros cv inp. reflexivity.
Qed.

(** C9 on a switch from camera 0 to a camera 1 that is not plugged in. *)
Lemma change_camera_releases_first_witness :
  match change_camera only_camera_0 1 (init only_camera_0) with
  | (t, s1, r) =>
      r = Returned tt /\
      camera_events t = [CapRelease 0; CapOpen 1] /\
      cap s1 = Some {| device := 1; opened := false |} /\
      video_label s1 = Text camera_missing /\
      update_frame (tick_seeing [(tag1, 0%Z)] 10 good_robot) s1 = ([], s1, Returned tt)
  end.
Proof.
  pose proof (change_camera_releases_first only_camera_0 1 (init only_camera_0)
                {| device := 0; opened := true |} eq_refl) as H.
  cbn in H. destruct H as (Hr & Hev & Hcap & _ & _ & Hlater).
  destruct (Hlater eq_refl) as [Hlabel Hticks].
  cbn.
  split; [exact Hr | ]. split; [exact Hev | ]. split; [exact Hcap | ].
  split; [exact Hlabel | ].
  exact (Hticks SyntheticCV (tick_seeing [(tag1, 0%Z)] 10 good_robot)).
Defined.

(** * Further properties of the code *)

(** ** What one call does *)

(** A tick with a capture in place is either quiet (no event, it returns,
    the capture and the gate are kept) or runs [move_to_qr] once and returns
    exactly when the pick is acknowledged; the capture is kept in both
    cases. *)
Lemma update_frame_cases {cv : OpenCV} (inp : TickInput) (s : App) (c : VideoCapture) :
  cap s = Some c ->
  (exists s1,
      update_frame inp s = ([], s1, Returned tt) /\
      cap s1 = cap s /\
      last_move_time s1 = last_move_time s /\
      move_delay s1 = move_delay s) \/
  (exists x y z t s1 r,
      update_frame inp s = (t, s1, r) /\
      fst (move_to_qr (robot inp) x y z s) = (t, s) /\
      cap s1 = cap s /\
      r = if pick_acknowledged (robot inp) x y z then Returned tt else Raised).
Proof.
  intro Hcap.
  destruct (opened c) eqn:Hop.
  2:{ left. eexists. rewrite (update_frame_closed inp s c Hcap Hop).
      repeat split. }
  destruct (cam_read inp) as [frame|] eqn:Hread.
  2:{ left. eexists. rewrite (update_frame_no_frame inp s c Hcap Hop Hread).
      repeat split. }
  destruct (detect frame) as [|first others] eqn:Hdet.
  { left. eexists. rewrite (update_frame_no_marker inp s c frame Hcap Hop Hread Hdet).
    repeat split. }
  destruct (Qlt_le_dec (move_delay s) (now inp - last_move_time s)) as [Hgt | Hle].
  - right.
    pose proof (update_frame_fired inp s c frame first others
                  Hcap Hop Hread Hdet Hgt) as Hfired.
    pose proof (update_frame_fires inp s c frame first others
                  Hcap Hop Hread Hdet Hgt) as Hfires.
    destruct (target_of _ _) as [[x y] z].
    destruct Hfired as (t & Hd & Heq).
    destruct (move_to_qr_shape (robot inp) x y z s) as (t0 & r0 & Hm & _).
    rewrite Hm in Hfires.
    assert (Ht : t = t0).
    { rewrite Hfires in Heq.
      destruct r0 as [[]|]; destruct (pick_acknowledged _ _ _ _);
        inversion Heq; reflexivity. }
    subst t0.
    exists x, y, z, t.
    destruct (pick_acknowledged (robot inp) x y z) eqn:Hpick.
    + eexists. exists (Returned tt). rewrite Heq, Hm.
      repeat split.
    + exists s, Raised. rewrite Heq, Hm. repeat split.
  - left. eexists. rewrite (update_frame_holds inp s c frame first others
                              Hcap Hop Hread Hdet Hle).
    repeat split.
Qed.

(** [change_camera] with a capture in place: what it emits and leaves. *)
Lemma change_camera_result (available : Z -> bool) (new_index : Z) (s : App)
      (old : VideoCapture) :
  cap s = Some old ->
  exists t s1,
    change_camera available new_index s = (t, s1, Returned tt) /\
    camera_events t = [CapRelease (device old); CapOpen new_index] /\
    dispatches t = [] /\ robot_calls t = [] /\
    cap s1 = Some {| device := new_index; opened := available new_index |} /\
    last_move_time s1 = last_move_time s /\
    move_delay s1 = move_delay s.
Proof.
  intro Hcap. unfold change_camera, bind, get, emit, modify. rewrite Hcap. cbn.
  destruct (available new_index); cbn; do 2 eexists; repeat split.
Qed.

Lemma camera_protocol_skip (held : option Z) (t : list Event) :
  camera_protocol held t = camera_protocol held (camera_events t).
Proof.
  revert held. induction t as [|e t IH]; intro held; [reflexivity | ].
  destruct e; cbn [camera_events filter camera_protocol]; try apply IH.
  - destruct held as [d'|]; [ | reflexivity ].
    destruct (Z.eqb device0 d'); [apply IH | reflexivity].
  - destruct held; [reflexivity | apply IH].
Qed.

Lemma camera_protocol_app (held : option Z) (t1 t2 : list Event) :
  camera_protocol held (t1 ++ t2) =
    match camera_protocol held t1 with
    | Some held1 => camera_protocol held1 t2
    | None => None
    end.
Proof.
  revert held. induction t1 as [|e t1 IH]; intro held; [reflexivity | ].
  destruct e; cbn [app camera_protocol]; try apply IH.
  - destruct held as [d'|]; [ | reflexivity ].
    destruct (Z.eqb device0 d'); [apply IH | reflexivity].
  - destruct held; [reflexivity | apply IH].
Qed.

Lemma move_to_qr_calls (rb : RobotLink) (x y z : Q) (s : App) :
  robot_calls (fst (fst (move_to_qr rb x y z s))) =
    until_refused (robot_ack rb)
      (GetPose :: pick_sequence (robot_pose rb) x y z).
Proof.
  unfold move_to_qr, bind, emit, robot_call, pick_sequence.
  cbn [until_refused].
  destruct (robot_ack rb GetPose); cbn; [ | reflexivity ].
  destruct (robot_ack rb (MoveJ _)); cbn; [ | reflexivity ].
  destruct (robot_ack rb (RunInstruction _)); cbn; [ | reflexivity ].
  destruct (robot_ack rb (MoveJ _)); cbn; reflexivity.
Qed.

Lemma perform_capture {cv : OpenCV} (a : Action) (s : App) (c : VideoCapture) :
  cap s = Some c ->
  forall t s1 r,
    perform a s = (t, s1, r) ->
    exists c1,
      cap s1 = Some c1 /\
      camera_protocol (Some (device c)) t = Some (Some (device c1)).
Proof.
  intros Hcap t s1 r Hperf. destruct a as [inp | available new_index]; cbn [perform] in Hperf.
  - destruct (update_frame_cases inp s c Hcap)
      as [(s2 & Heq & Hc & _) | (x & y & z & t2 & s2 & r2 & Heq & Hm & Hc & _)];
      rewrite Heq in Hperf; inversion Hperf; subst; exists c;
      (split; [congruence | ]).
    + reflexivity.
    + destruct (move_to_qr_shape (robot inp) x y z s) as (t0 & r0 & Hshape & _ & Hcam & _).
      rewrite Hshape in Hm. inversion Hm; subst.
      rewrite camera_protocol_skip, Hcam. reflexivity.
  - destruct (change_camera_result available new_index s c Hcap)
      as (t2 & s2 & Heq & Hcam & _ & _ & Hc & _).
    rewrite Heq in Hperf. inversion Hperf; subst.
    eexists. split; [exact Hc | ].
    rewrite camera_protocol_skip, Hcam. cbn. rewrite Z.eqb_refl. reflexivity.
Qed.

Lemma log_events_cons (time : option Q) (t : list Event) (log : list LogEntry) :
  log_events ((time, t) :: log) = (t ++ log_events log)%list.
Proof. reflexivity. Qed.

Lemma run_capture {cv : OpenCV} (actions : list Action) :
  forall s c log s' r,
    cap s = Some c ->
    run actions s = (log, s', r) ->
    exists c',
      cap s' = Some c' /\
      camera_protocol (Some (device c)) (log_events log) = Some (Some (device c')).
Proof.
  induction actions as [|a rest IH]; intros s c log s' r Hcap Hrun; cbn [run] in Hrun.
  - inversion Hrun; subst. exists c. split; [exact Hcap | reflexivity].
  - destruct (perform a s) as [[t s1] r1] eqn:Hperf.
    destruct (perform_capture a s c Hcap t s1 r1 Hperf) as (c1 & Hc1 & Hproto).
    destruct r1 as [[]|].
    + destruct (run rest s1) as [[log1 s2] r2] eqn:Hrest.
      inversion Hrun; subst; clear Hrun.
      destruct (IH s1 c1 log1 s' r Hc1 Hrest) as (c' & Hc' & Hproto').
      exists c'. split; [exact Hc' | ].
      rewrite log_events_cons, camera_protocol_app, Hproto. exact Hproto'.
    + inversion Hrun; subst; clear Hrun.
      exists c1. split; [exact Hc1 | ].
      rewrite log_events_cons, camera_protocol_app, Hproto. reflexivity.
Qed.

Lemma last_cons_default (A : Type) (a d : A) (l : list A) :
  last (a :: l) d = last l a.
Proof.
  revert a d. induction l as [|b l IH]; intros a d; [reflexivity | ].
  change (last (a :: b :: l) d) with (last (b :: l) d).
  rewrite (IH b d), (IH b a). reflexivity.
Qed.

(** Values spaced by more than [len], all more than [len] above [base]:
    the last of them is more than [len] times their number above [base]. *)
Lemma spaced_reach (len : Q) (ds : list Q) :
  0 <= len ->
  forall base,
    spaced len ds ->
    (forall d, In d ds -> base + len < d) ->
    ds <> [] ->
    exists d, In d ds /\ base + len * inject_Z (Z.of_nat (List.length ds)) < d.
Proof.
  intro Hpos. induction ds as [|d rest IH]; intros base Hsp Hall Hne; [congruence | ].
  destruct Hsp as [Hafter Hsp].
  assert (Hd : base + len < d) by (apply Hall; left; reflexivity).
  destruct rest as [|e rest'].
  - exists d. split; [left; reflexivity | ].
    change (inject_Z (Z.of_nat (List.length [d]))) with 1. lra.
  - destruct (IH d Hsp) as (d' & Hin & Hreach).
    + intros d0 Hd0. specialize (Hafter d0 Hd0). lra.
    + discriminate.
    + exists d'. split; [right; exact Hin | ].
      change (List.length (d :: e :: rest')) with (S (List.length (e :: rest'))).
      rewrite Nat2Z.inj_succ. unfold Z.succ. rewrite inject_Z_plus.
      change (inject_Z 1) with 1. lra.
Qed.

(** ** Whole runs *)

(** X1.  From start-up, a run in which the robot acknowledges every call
    never raises: every tick and every camera switch returns, and a capture
    object is in place at the end. *)
Theorem obedient_run_returns {cv : OpenCV}
        (available : Z -> bool) (actions : list Action) :
  obedient actions ->
  match run actions (init available) with
  | (log, s', r) =>
      r = Returned tt /\
      List.length log = List.length actions /\
      exists c, cap s' = Some c
  end.
Proof.
  intro Hob.
  assert (Hgen : forall s c, cap s = Some c ->
            match run actions s with
            | (log, s', r) =>
                r = Returned tt /\
                List.length log = List.length actions /\
                exists c', cap s' = Some c'
            end).
  { induction Hob as [|a rest Ha Hrest IH]; intros s c Hcap; cbn [run].
    - split; [reflexivity | split; [reflexivity | exists c; exact Hcap]].
    - assert (Hstep : exists t s1 c1,
                 perform a s = (t, s1, Returned tt) /\ cap s1 = Some c1).
      { destruct a as [inp | av idx]; cbn [perform].
        - destruct (update_frame_cases inp s c Hcap)
            as [(s2 & Heq & Hc & _) | (x & y & z & t2 & s2 & r2 & Heq & _ & Hc & Hr)].
          + exists [], s2, c. split; [exact Heq | congruence].
          + rewrite (acknowledges_all_pick (robot inp) x y z Ha) in Hr. subst r2.
            exists t2, s2, c. split; [exact Heq | congruence].
        - destruct (change_camera_result av idx s c Hcap)
            as (t2 & s2 & Heq & _ & _ & _ & Hc & _).
          exists t2, s2. eexists. split; [exact Heq | exact Hc]. }
      destruct Hstep as (t & s1 & c1 & Hperf & Hc1). rewrite Hperf.
      specialize (IH s1 c1 Hc1).
      destruct (run rest s1) as [[log1 s2] r2].
      destruct IH as (Hr & Hlen & Hc2).
      split; [exact Hr | ]. split; [ | exact Hc2 ].
      cbn [List.length]. rewrite Hlen. reflexivity. }
  apply (Hgen (init available) {| device := 0; opened := available 0%Z |}).
  reflexivity.
Qed.

(** X1 on three ticks and a camera switch with a robot that acknowledges. *)
Lemma obedient_run_returns_witness :
  snd (run [ Tick (tick_seeing [(tag1, 0%Z)] 10 good_robot);
             ChangeCamera only_camera_0 1;
             Tick (tick_seeing [(tag1, 0%Z)] 11 good_robot);
             Tick (tick_seeing [] 12 good_robot) ]
           (init all_cameras)) = Returned tt.
Proof.
  pose proof (obedient_run_returns all_cameras
                [ Tick (tick_seeing [(tag1, 0%Z)] 10 good_robot);
                  ChangeCamera only_camera_0 1;
                  Tick (tick_seeing [(tag1, 0%Z)] 11 good_robot);
                  Tick (tick_seeing [] 12 good_robot) ]) as H.
  destruct (run _ (init all_cameras)) as [[log s'] r].
  apply H. unfold obedient. repeat constructor.
Defined.

(** X2.  Along a run from any state, [move_delay] never changes, and when
    the run returns [last_move_time] is the clock value of the most recent
    call of [move_to_qr], or its initial value when there was none. *)
Theorem last_move_time_is_last_move {cv : OpenCV} (actions : list Action) (s : App) :
  match run actions s with
  | (log, s', r) =>
      move_delay s' = move_delay s /\
      (r = Returned tt ->
       last_move_time s' = last (dispatch_times log) (last_move_time s))
  end.
Proof.
  revert s. induction actions as [|a rest IH]; intro s; cbn [run].
  - split; [reflexivity | intros _; reflexivity].
  - destruct (perform a s) as [[t s1] r1] eqn:Hperf.
    destruct (perform_gate a s t s1 r1 Hperf) as [Hdelay Hgate].
    destruct r1 as [[]|].
    + specialize (IH s1). destruct (run rest s1) as [[log1 s2] r2].
      destruct IH as [Hdelay2 Hlast2].
      split; [congruence | ]. intro Hr. specialize (Hlast2 Hr).
      rewrite dispatch_times_cons.
      destruct Hgate as [[Hnone Hlast] | (time & tgt & Htime & Hone & _ & _ & Hlast)].
      * rewrite Hnone. destruct (action_time a); cbn [map app]; congruence.
      * rewrite Htime, Hone. cbn [map app]. rewrite last_cons_default.
        rewrite <- (Hlast eq_refl). exact Hlast2.
    + split; [exact Hdelay | ]. intro Hr. discriminate Hr.
Qed.

(** X3.  From start-up, if every call of [move_to_qr] of a run has a clock
    value of at most [T], there were fewer than [T / 3] of them. *)
Theorem moves_bounded_by_clock {cv : OpenCV}
        (available : Z -> bool) (actions : list Action) (T : Q) :
  let moves := dispatch_times (fst (fst (run actions (init available)))) in
  (forall d, In d moves -> d <= T) ->
  moves <> [] ->
  3 * inject_Z (Z.of_nat (List.length moves)) < T.
Proof.
  cbv zeta. destruct (run actions (init available)) as [[log s'] r] eqn:Hrun.
  cbn [fst]. intros Hall Hne.
  assert (Hpos : 0 <= move_delay (init available)) by (cbn; lra).
  destruct (run_spaced actions _ log s' r Hpos Hrun) as [Hsp Hafter].
  change (move_delay (init available)) with 3 in Hsp, Hafter, Hpos.
  destruct (spaced_reach 3 (dispatch_times log) Hpos 0 Hsp) as (d & Hin & Hreach).
  - intros d Hd. specialize (Hafter d Hd). cbn in Hafter. lra.
  - exact Hne.
  - specialize (Hall d Hin). lra.
Qed.

(** X3 on a run of five ticks from clock value 10 to 20: three moves. *)
Lemma moves_bounded_by_clock_witness :
  3 * inject_Z (Z.of_nat (List.length
        (dispatch_times (fst (fst (run
           (map (fun time => Tick (tick_seeing [(tag1, 0%Z)] time good_robot))
                [10; 12; 14; 16; 20])
           (init all_cameras))))))) < 20.
Proof.
  apply (moves_bounded_by_clock all_cameras
           (map (fun time => Tick (tick_seeing [(tag1, 0%Z)] time good_robot))
                [10; 12; 14; 16; 20]) 20).
  - vm_compute. intros d [H | [H | [H | []]]]; subst d; discriminate.
  - vm_compute. discriminate.
Defined.

(** X4.  Over a whole session ([__init__] opens camera 0, then any run, then
    [close_app]) the capture objects are handled one at a time: a capture is
    only created when none is held, only the held capture is released, and
    after [close_app] none is held. *)
Theorem session_releases_every_capture {cv : OpenCV}
        (available : Z -> bool) (actions : list Action) :
  match run actions (init available) with
  | (log, s', r) =>
      camera_protocol None
        (CapOpen 0 :: log_events log ++ core_events (fst (close_app s')))%list
      = Some None
  end.
Proof.
  destruct (run actions (init available)) as [[log s'] r] eqn:Hrun.
  destruct (run_capture actions (init available)
              {| device := 0; opened := available 0%Z |} log s' r eq_refl Hrun)
    as (c' & Hc' & Hproto).
  cbn [camera_protocol]. rewrite camera_protocol_app.
  cbn [device] in Hproto. rewrite Hproto.
  unfold close_app. rewrite Hc'. cbn. rewrite Z.eqb_refl. reflexivity.
Qed.

(** X5.  While no camera opens (camera 0 is missing at start-up and every
    switch asks for a device that does not open), the run returns and the
    robot receives no call at all, whatever the frames and clock values. *)
Theorem no_device_no_robot {cv : OpenCV}
        (available : Z -> bool) (actions : list Action) :
  available 0%Z = false ->
  no_device actions ->
  match run actions (init available) with
  | (log, s', r) =>
      r = Returned tt /\
      robot_calls (log_events log) = [] /\
      dispatch_times log = [] /\
      last_move_time s' = 0
  end.
Proof.
  intros Hav Hno.
  assert (Hgen : forall s c, cap s = Some c -> opened c = false ->
            match run actions s with
            | (log, s', r) =>
                r = Returned tt /\
                robot_calls (log_events log) = [] /\
                dispatch_times log = [] /\
                last_move_time s' = last_move_time s
            end).
  { induction Hno as [|a rest Ha Hrest IH]; intros s c Hcap Hop; cbn [run].
    - repeat split.
    - assert (Hstep : exists t s1 c1,
                 perform a s = (t, s1, Returned tt) /\
                 cap s1 = Some c1 /\ opened c1 = false /\
                 robot_calls t = [] /\ dispatches t = [] /\
                 last_move_time s1 = last_move_time s).
      { destruct a as [inp | av idx]; cbn [perform].
        - rewrite (update_frame_closed inp s c Hcap Hop).
          exists [], (set_video_label (Text camera_missing) s), c.
          repeat split; assumption.
        - destruct (change_camera_result av idx s c Hcap)
            as (t2 & s2 & Heq & _ & Hd & Hcalls & Hc & Hlast & _).
          exists t2, s2. eexists. split; [exact Heq | ].
          split; [exact Hc | ]. cbn [opened]. repeat split; assumption. }
      destruct Hstep as (t & s1 & c1 & Hperf & Hc1 & Hop1 & Hcalls & Hd & Hlast).
      rewrite Hperf.
      specialize (IH s1 c1 Hc1 Hop1).
      destruct (run rest s1) as [[log1 s2] r2].
      destruct IH as (Hr & Hcalls2 & Hd2 & Hlast2).
      split; [exact Hr | ].
      rewrite log_events_cons, dispatch_times_cons. unfold robot_calls in *.
      rewrite flat_map_app, Hcalls, Hcalls2, Hd, Hd2.
      split; [reflexivity | ]. split; [ destruct (action_time a); reflexivity | ].
      congruence. }
  apply (Hgen (init available) {| device := 0; opened := available 0%Z |});
    [reflexivity | exact Hav].
Qed.

(** X5 on a machine without cameras: two ticks around a failed switch. *)
Lemma no_device_no_robot_witness :
  robot_calls (log_events (fst (fst (run
     [ Tick (tick_seeing [(tag1, 0%Z)] 10 good_robot);
       ChangeCamera (fun _ => false) 1;
       Tick (tick_seeing [(tag1, 0%Z)] 20 good_robot) ]
     (init (fun _ => false)))))) = [].
Proof.
  pose proof (no_device_no_robot (fun _ => false)
     [ Tick (tick_seeing [(tag1, 0%Z)] 10 good_robot);
       ChangeCamera (fun _ => false) 1;
       Tick (tick_seeing [(tag1, 0%Z)] 20 good_robot) ] eq_refl) as H.
  destruct (run _ (init (fun _ => false))) as [[log s'] r].
  apply H. unfold no_device. repeat constructor.
Defined.

(** ** Single ticks *)

(** X6.  A tick that reads a frame and returns shows one overlay entry per
    detected marker, in detector order, whether or not the robot was moved,
    and the distance label only ever reads "N/A" or "Calculated"; a tick
    that raises leaves every field as it was. *)
Theorem overlay_lists_every_marker {cv : OpenCV} (inp : TickInput) (s : App)
        (c : VideoCapture) (frame : Frame) :
  cap s = Some c -> opened c = true ->
  cam_read inp = Some frame ->
  match update_frame inp s with
  | (t, s1, Returned _) =>
      video_label s1 =
        Pixmap (center_of frame) (map (annotate (center_of frame)) (detect frame)) /\
      distance_label s1 =
        match detect frame with
        | [] => "Distance: N/A"%string
        | _ :: _ => "Distance: Calculated"%string
        end
  | (t, s1, Raised) => s1 = s
  end.
Proof.
  intros Hcap Hop Hread.
  destruct (detect frame) as [|first others] eqn:Hdet.
  - rewrite (update_frame_no_marker inp s c frame Hcap Hop Hread Hdet).
    split; reflexivity.
  - destruct (Qlt_le_dec (move_delay s) (now inp - last_move_time s)) as [Hgt | Hle].
    + pose proof (update_frame_fired inp s c frame first others
                    Hcap Hop Hread Hdet Hgt) as Hfired.
      destruct (target_of _ _) as [[x y] z].
      destruct Hfired as (t & _ & Heq). rewrite Heq.
      destruct (pick_acknowledged (robot inp) x y z); [split | ]; reflexivity.
    + rewrite (update_frame_holds inp s c frame first others Hcap Hop Hread Hdet Hle).
      split; reflexivity.
Qed.

(** X6 on a tick that sees tags 1 and 2 while the gate is shut. *)
Lemma overlay_lists_every_marker_witness :
  video_label (snd (fst (update_frame
      (tick_seeing [(tag1, 0%Z); (tag2, 5%Z)] 2 good_robot) (init all_cameras)))) =
  Pixmap (640%Z, 360%Z)
         [ {| ann_center := (740%Z, 260%Z); ann_rel := (100%Z, 100%Z);
              ann_seed := Some "Porumb"%string |};
           {| ann_center := (200%Z, 500%Z); ann_rel := ((-440)%Z, (-140)%Z);
              ann_seed := Some "Orz"%string |} ].
Proof.
  pose proof (overlay_lists_every_marker
                (tick_seeing [(tag1, 0%Z); (tag2, 5%Z)] 2 good_robot)
                (init all_cameras) {| device := 0; opened := true |}
                (frame_720p [(tag1, 0%Z); (tag2, 5%Z)])
                eq_refl eq_refl eq_refl) as H.
  destruct (update_frame _ (init all_cameras)) as [[t s1] [[]|]] eqn:Heq.
  - exact (proj1 H).
  - vm_compute in Heq. discriminate Heq.
Defined.

(** X7.  The overlay names a seed exactly for the marker ids 1 to 10; any
    other id is drawn with its coordinates only. *)
Theorem seed_only_for_ids_1_to_10 (origin : Z * Z) (m : Marker) :
  ann_seed (annotate origin m) = None <->
  (marker_id m < 1 \/ 10 < marker_id m)%Z.
Proof.
  unfold annotate. cbn [ann_seed]. generalize (marker_id m) as id. intro id.
  unfold tag_info. cbn [lookup_seed].
  repeat match goal with
         | |- context [Z.eqb ?k id] =>
             destruct (Z.eqb_spec k id); [split; [discriminate | lia] | ]
         end.
  split; [lia | reflexivity].
Qed.

(** X8.  [move_to_qr] asks for the pose, then sends the pick sequence, and
    stops at the first call the robot refuses: nothing is sent after a
    refusal.  It returns, and prints its success message, exactly when all
    four calls were acknowledged. *)
Theorem pick_stops_at_first_refusal (rb : RobotLink) (x y z : Q) (s : App) :
  match move_to_qr rb x y z s with
  | (t, s1, r) =>
      robot_calls t =
        until_refused (robot_ack rb)
          [ GetPose;
            MoveJ (setPos (robot_pose rb) (x * 1000, y * 1000, z * 1000));
            RunInstruction "GripperClose";
            MoveJ (setPos (robot_pose rb) (x * 1000, y * 1000, (z + 0.1) * 1000)) ] /\
      (r = Returned tt <-> pick_acknowledged rb x y z = true) /\
      (In (Printed ObjectPicked) t <-> r = Returned tt)
  end.
Proof.
  pose proof (move_to_qr_calls rb x y z s) as Hcalls.
  pose proof (move_to_qr_outcome rb x y z s) as Hout.
  destruct (move_to_qr rb x y z s) as [[t s1] r] eqn:Heq.
  cbn [fst snd] in Hcalls, Hout.
  split; [exact Hcalls | ]. split.
  - rewrite Hout. destruct (pick_acknowledged rb x y z); split; congruence.
  - revert Heq. unfold move_to_qr, bind, emit, robot_call.
    destruct (robot_ack rb GetPose); cbn.
    2:{ intro H; inversion H; subst. split; [ | discriminate ].
        cbn. intuition discriminate. }
    destruct (robot_ack rb (MoveJ _)); cbn.
    2:{ intro H; inversion H; subst. split; [ | discriminate ].
        cbn. intuition discriminate. }
    destruct (robot_ack rb (RunInstruction _)); cbn.
    2:{ intro H; inversion H; subst. split; [ | discriminate ].
        cbn. intuition discriminate. }
    destruct (robot_ack rb (MoveJ _)); cbn.
    2:{ intro H; inversion H; subst. split; [ | discriminate ].
        cbn. intuition discriminate. }
    intro H; inversion H; subst. split; [reflexivity | ].
    intros _. cbn. intuition.
Qed.

(** ** From pixels to the robot *)

Lemma astype_int_within (x : Q) (w : Z) :
  0 <= x <= inject_Z w -> (0 <= astype_int x <= w)%Z.
Proof.
  intros [Hlo Hhi]. unfold astype_int.
  assert (Hb : Qle_bool 0 x = true) by (apply Qle_bool_iff; exact Hlo).
  rewrite Hb. split.
  - rewrite <- (Qfloor_Z 0). apply Qfloor_resp_le. exact Hlo.
  - rewrite <- (Qfloor_Z w). apply Qfloor_resp_le. exact Hhi.
Qed.

(** The centre of a marker whose corners lie in the frame is a pixel of the
    frame. *)
Lemma marker_center_within (w h : Z) (q : Quad) :
  in_frame w h q ->
  (0 <= fst (marker_center q) <= w)%Z /\ (0 <= snd (marker_center q) <= h)%Z.
Proof.
  unfold in_frame. intro Hin.
  inversion Hin as [|? ? [H0x H0y] Hin1]; subst.
  inversion Hin1 as [|? ? [H1x H1y] Hin2]; subst.
  inversion Hin2 as [|? ? [H2x H2y] Hin3]; subst.
  inversion Hin3 as [|? ? [H3x H3y] _]; subst.
  unfold marker_center, corner_mean. cbn [fst snd].
  split; apply astype_int_within; split;
    try (apply Qle_shift_div_l; [reflexivity | lra]);
    try (apply Qle_shift_div_r; [reflexivity | lra]).
Qed.

(** X9.  For a marker whose corners lie inside a frame of width [w] and
    height [h], the target computed from the frame centre stays in the
    rectangle that the frame spans at 1 mm per pixel: [x] between
    [-(w/2)/1000] and [(w - w/2)/1000], [y] between [-(h - h/2)/1000] and
    [(h/2)/1000], and [z = 0.1]. *)
Theorem target_within_frame (w h : Z) (q : Quad) :
  in_frame w h q ->
  match target_of ((w / 2)%Z, (h / 2)%Z) (marker_center q) with
  | (x, y, z) =>
      - (inject_Z (w / 2) / 1000) <= x <= inject_Z (w - w / 2) / 1000 /\
      - (inject_Z (h - h / 2) / 1000) <= y <= inject_Z (h / 2) / 1000 /\
      z = 0.1
  end.
Proof.
  intro Hin. destruct (marker_center_within w h q Hin) as [[Hx0 Hx1] [Hy0 Hy1]].
  unfold target_of, relative, convert_to_robot_coordinates. cbn [fst snd].
  assert (Hxl : inject_Z (- (w / 2)) <= inject_Z (fst (marker_center q) - w / 2))
    by (rewrite <- Zle_Qle; lia).
  assert (Hxh : inject_Z (fst (marker_center q) - w / 2) <= inject_Z (w - w / 2))
    by (rewrite <- Zle_Qle; lia).
  assert (Hyl : inject_Z (- (h - h / 2)) <= inject_Z (h / 2 - snd (marker_center q)))
    by (rewrite <- Zle_Qle; lia).
  assert (Hyh : inject_Z (h / 2 - snd (marker_center q)) <= inject_Z (h / 2))
    by (rewrite <- Zle_Qle; lia).
  rewrite inject_Z_opp in Hxl, Hyl.
  generalize dependent (inject_Z (fst (marker_center q) - w / 2)).
  generalize dependent (inject_Z (h / 2 - snd (marker_center q))).
  generalize (inject_Z (w / 2)) (inject_Z (w - w / 2))
             (inject_Z (h / 2)) (inject_Z (h - h / 2)).
  intros. unfold Qdiv. change (/ 1000) with (1 # 1000). repeat split; lra.
Qed.

(** X9 for tag 1 in a 1280 by 720 frame. *)
Lemma target_within_frame_witness :
  match target_of (640%Z, 360%Z) (marker_center (marker_corners tag1)) with
  | (x, y, z) => - 0.64 <= x <= 0.64 /\ - 0.36 <= y <= 0.36 /\ z = 0.1
  end.
Proof.
  assert (Hin : in_frame 1280 720 (marker_corners tag1)).
  { unfold in_frame, tag1, square. cbn [marker_corners c0 c1 c2 c3].
    change (inject_Z 1280) with 1280. change (inject_Z 720) with 720.
    repeat (apply Forall_cons; [ cbn [fst snd]; split; split; lra | ]).
    apply Forall_nil. }
  pose proof (target_within_frame 1280 720 (marker_corners tag1) Hin) as H.
  change ((1280 / 2)%Z) with 640%Z in H. change ((720 / 2)%Z) with 360%Z in H.
  destruct (target_of (640%Z, 360%Z) (marker_center (marker_corners tag1)))
    as [[x y] z].
  destruct H as ([Hx0 Hx1] & [Hy0 Hy1] & Hz).
  change (inject_Z (1280 - 640)) with (inject_Z 640) in Hx1.
  change (inject_Z (720 - 360)) with (inject_Z 360) in Hy0.
  change (inject_Z 640) with 640 in Hx0, Hx1.
  change (inject_Z 360) with 360 in Hy0, Hy1.
  unfold Qdiv in Hx0, Hx1, Hy0, Hy1.
  change (/ 1000) with (1 # 1000) in Hx0, Hx1, Hy0, Hy1.
  repeat split; try exact Hz; lra.
Defined.

(** X10.  One pixel is one millimetre: when a marker centre is converted and
    the pick is acknowledged, the robot is sent to the pixel offset from the
    frame centre, read in millimetres, at height 100 mm, the gripper is
    closed, and the robot is raised to 200 mm over the same point, with the
    orientation it reported. *)
Theorem pixel_offset_sent_in_millimetres
        (rb : RobotLink) (origin centre : Z * Z) (s : App) :
  acknowledges_all rb ->
  match target_of origin centre with
  | (x, y, z) =>
      exists p1 p2,
        robot_commands (fst (fst (move_to_qr rb x y z s))) =
          [MoveJ p1; RunInstruction "GripperClose"; MoveJ p2] /\
        rotation p1 = rotation (robot_pose rb) /\
        rotation p2 = rotation (robot_pose rb) /\
        triple_eq (position p1)
                  (inject_Z (fst centre - fst origin),
                   inject_Z (snd origin - snd centre), 100) /\
        triple_eq (position p2)
                  (inject_Z (fst centre - fst origin),
                   inject_Z (snd origin - snd centre), 200)
  end.
Proof.
  intro Hack. unfold target_of, relative, convert_to_robot_coordinates.
  cbn [fst snd]. cbv zeta.
  match goal with
  | |- context [move_to_qr rb ?x ?y ?z s] =>
      destruct (move_to_qr_ok rb x y z s Hack) as (t & Heq & _ & Hcmds)
  end.
  rewrite Heq. cbn [fst]. rewrite Hcmds. unfold pick_sequence.
  do 2 eexists. split; [reflexivity | ].
  split; [reflexivity | ]. split; [reflexivity | ].
  unfold triple_eq. cbn [setPos position fst snd].
  repeat split; field.
Qed.

(** X10 for tag 1, centred 100 pixels right of and above the frame centre. *)
Lemma pixel_offset_sent_in_millimetres_witness :
  exists p1 p2,
    robot_commands (fst (fst (move_to_qr good_robot (inject_Z 100 / 1000)
                                         (inject_Z 100 / 1000) 0.1
                                         (init all_cameras)))) =
      [MoveJ p1; RunInstruction "GripperClose"; MoveJ p2] /\
    triple_eq (position p1) (100, 100, 100) /\
    triple_eq (position p2) (100, 100, 200).
Proof.
  destruct (pixel_offset_sent_in_millimetres good_robot (640%Z, 360%Z) (740%Z, 260%Z)
              (init all_cameras) (fun c => eq_refl))
    as (p1 & p2 & Hcmds & _ & _ & H1 & H2).
  exists p1, p2. split; [exact Hcmds | ]. split; [exact H1 | exact H2].
Defined.

(** X11.  Different marker centres never get the same target: the transform
    is one-to-one on pixels. *)
Theorem target_determines_pixel (origin centre1 centre2 : Z * Z) :
  triple_eq (target_of origin centre1) (target_of origin centre2) ->
  centre1 = centre2.
Proof.
  destruct origin as [ox oy], centre1 as [a1 b1], centre2 as [a2 b2].
  unfold triple_eq, target_of, relative, convert_to_robot_coordinates.
  cbn [fst snd]. intros (Hx & Hy & _).
  unfold Qdiv in Hx, Hy. change (/ 1000) with (1 # 1000) in Hx, Hy.
  assert (Hx' : inject_Z (a1 - ox) == inject_Z (a2 - ox)).
  { revert Hx. generalize (inject_Z (a1 - ox)) (inject_Z (a2 - ox)). intros; lra. }
  assert (Hy' : inject_Z (oy - b1) == inject_Z (oy - b2)).
  { revert Hy. generalize (inject_Z (oy - b1)) (inject_Z (oy - b2)). intros; lra. }
  apply (proj1 (inject_Z_injective _ _)) in Hx'.
  apply (proj1 (inject_Z_injective _ _)) in Hy'.
  f_equal; lia.
Qed.

(** X11 at the centre of tag 1. *)
Lemma target_determines_pixel_witness :
  marker_center (marker_corners tag1) = (740%Z, 260%Z).
Proof.
  apply (target_determines_pixel (640%Z, 360%Z)).
  unfold triple_eq. vm_compute. repeat split.
Defined.

(** ** What a tick does not depend on *)

(** X13.  The marker ids and [tag_info] play no part in moving the robot:
    two ticks on the same state, at the same clock value, with the same
    robot and frame centre, whose frames show markers with the same corners
    in the same order but any ids, emit the same events, have the same
    outcome and leave the same [last_move_time]. *)
Theorem ids_do_not_steer_the_robot {cv : OpenCV} (inp1 inp2 : TickInput) (s : App)
        (frame1 frame2 : Frame) :
  cam_read inp1 = Some frame1 -> cam_read inp2 = Some frame2 ->
  now inp1 = now inp2 -> robot inp1 = robot inp2 ->
  center_of frame1 = center_of frame2 ->
  map marker_corners (detect frame1) = map marker_corners (detect frame2) ->
  match update_frame inp1 s, update_frame inp2 s with
  | (t1, s1, r1), (t2, s2, r2) =>
      t1 = t2 /\ r1 = r2 /\ last_move_time s1 = last_move_time s2
  end.
Proof.
  intros Hread1 Hread2 Hnow Hrobot Hcenter Hcorners.
  destruct (cap s) as [c|] eqn:Hcap.
  2:{ rewrite !update_frame_no_cap by assumption. repeat split. }
  destruct (opened c) eqn:Hop.
  2:{ rewrite !(update_frame_closed _ s c) by assumption. repeat split. }
  destruct (detect frame1) as [|m1 ms1] eqn:Hdet1;
    destruct (detect frame2) as [|m2 ms2] eqn:Hdet2;
    try discriminate Hcorners.
  - rewrite (update_frame_no_marker inp1 s c frame1),
            (update_frame_no_marker inp2 s c frame2) by assumption.
    repeat split.
  - cbn [map] in Hcorners. inversion Hcorners as [[Hhead Htail]]; clear Hcorners.
    destruct (Qlt_le_dec (move_delay s) (now inp1 - last_move_time s)) as [Hgt | Hle].
    + assert (Hgt2 : move_delay s < now inp2 - last_move_time s)
        by (rewrite <- Hnow; exact Hgt).
      pose proof (update_frame_fires inp1 s c frame1 m1 ms1
                    Hcap Hop Hread1 Hdet1 Hgt) as F1.
      pose proof (update_frame_fires inp2 s c frame2 m2 ms2
                    Hcap Hop Hread2 Hdet2 Hgt2) as F2.
      rewrite <- Hcenter, <- Hhead, <- Hrobot, <- Hnow in F2.
      rewrite F1, F2.
      destruct (target_of _ _) as [[x y] z].
      destruct (move_to_qr (robot inp1) x y z s) as [[t0 s0] [[]|]];
        repeat split.
    + rewrite (update_frame_holds inp1 s c frame1 m1 ms1) by assumption.
      rewrite Hnow in Hle.
      rewrite (update_frame_holds inp2 s c frame2 m2 ms2) by assumption.
      repeat split.
Qed.

(** X13 on tag 1 and on an unlisted tag 99 printed at the same place. *)
Lemma ids_do_not_steer_the_robot_witness :
  fst (fst (update_frame (tick_seeing [(tag1, 0%Z)] 4 good_robot) (init all_cameras))) =
  fst (fst (update_frame
              (tick_seeing [({| marker_id := 99; marker_corners := square 740 260 10 |},
                             0%Z)] 4 good_robot)
              (init all_cameras))).
Proof.
  pose proof (ids_do_not_steer_the_robot
                (tick_seeing [(tag1, 0%Z)] 4 good_robot)
                (tick_seeing [({| marker_id := 99; marker_corners := square 740 260 10 |},
                               0%Z)] 4 good_robot)
                (init all_cameras)
                (frame_720p [(tag1, 0%Z)])
                (frame_720p [({| marker_id := 99;
                                 marker_corners := square 740 260 10 |}, 0%Z)])
                eq_refl eq_refl eq_refl eq_refl eq_refl eq_refl) as H.
  destruct (update_frame (tick_seeing [(tag1, 0%Z)] 4 good_robot) (init all_cameras))
    as [[t1 s1] r1].
  destruct (update_frame _ (init all_cameras)) as [[t2 s2] r2].
  exact (proj1 H).
Defined.
